(** * Room pool and session lifecycle of the voice services

    A shallow embedding of the two room pools and session managers of the
    repository:

    - [server/voice-ai-service/utils/room_pool.py] and
      [server/voice-ai-service/src/server.py] (module [VoiceAI]);
    - [ex/instant-voice/server/src/server.py] (module [InstantVoice]).

    Coroutines are written as terms of a small free monad [prog] whose
    operations are the suspension points and the shared-state accesses of the
    Python code.  A machine runs one foreground coroutine and the background
    tasks created with [asyncio.create_task], under an explicit schedule. *)

From stdpp Require Import base strings list gmap gmultiset pretty.
From Stdlib Require Import ZArith Lia Ascii.

Set Default Proof Using "Type".
Set Warnings "-clear-no-such-hyp".

(** ** Python values used by the code *)

Module Py.

(** [s.split(sep)] for a one-character separator: never the empty list. *)
Fixpoint split_go (sep : Ascii.ascii) (cur s : string) : list string :=
  match s with
  | EmptyString => [cur]
  | String c r =>
      if Ascii.eqb c sep then cur :: split_go sep EmptyString r
      else split_go sep (cur +:+ String c EmptyString) r
  end.

Definition split (sep : Ascii.ascii) (s : string) : list string :=
  split_go sep EmptyString s.

(** [l[-1]] on a list of strings that is known not to be empty. *)
Definition last_item (l : list string) : string := List.last l EmptyString.

(** Truth value of a [str]: the empty string is false. *)
Definition truthy (s : string) : bool := negb (String.eqb s EmptyString).

(** [not l] for a list. *)
Definition is_empty {A : Type} (l : list A) : bool :=
  match l with
  | [] => true
  | _ :: _ => false
  end.

(** Truth value of an [Optional[str]]: [None] and the empty string are false. *)
Definition truthy_opt (o : option string) : bool :=
  match o with
  | Some s => truthy s
  | None => false
  end.

End Py.

(** The exceptions the code raises, catches or lets through. *)
Inductive exn : Type :=
| HTTPException (status_code : Z) (detail : string)
| TimeoutError
| KeyError
| IndexError
| LibraryError (msg : string).

Definition is_HTTPException (e : exn) : bool :=
  match e with
  | HTTPException _ _ => true
  | _ => false
  end.

Definition is_TimeoutError (e : exn) : bool :=
  match e with
  | TimeoutError => true
  | _ => false
  end.

(** A pool entry: the dict [{"room_url", "user_token", "bot_token"}]. *)
Record entry : Type := Entry {
  room_url : string;
  user_token : string;
  bot_token : string
}.

(** An [asyncio.subprocess.Process]; [pid] is what [proc.pid] reads. *)
Record process : Type := Process {
  proc_id : Z;
  pid : option Z
}.

(** The fields of a [VoiceBotManager] that [server.py] touches. [has_task]
    is the truth value of [self.task]. *)
Record bot : Type := Bot {
  b_room_url : string;
  b_token : option string;
  b_session_id : string;
  b_has_task : bool
}.

(** ** The outside world *)

(** Calls that leave the process. *)
Inductive call : Type :=
| HttpPost (url : string) (room_name : option string)
| HttpDelete (url : string)
| DailyCreateRoom
| DailyGetToken (url : string)
| DailyDeleteRoomByUrl (url : string)
| CreateSubprocessShell (command : string)
| ProcTerminate (p : Z)
| Uuid4
| BotInitialize (session_id : string)
| BotRun (session_id : string)
| TaskCancel (session_id : string).

(** What each call gives back: an exception or a value. For the two HTTP
    verbs the value is the response status and the JSON field the caller
    reads with [result.get]. *)
Definition reply (c : call) : Type :=
  match c with
  | HttpPost _ _ => exn + (Z * option string)
  | HttpDelete _ => exn + (Z * option string)
  | DailyCreateRoom => exn + string
  | DailyGetToken _ => exn + string
  | DailyDeleteRoomByUrl _ => exn + unit
  | CreateSubprocessShell _ => exn + process
  | ProcTerminate _ => exn + unit
  | Uuid4 => string
  | BotInitialize _ => exn + unit
  | BotRun _ => exn + unit
  | TaskCancel _ => exn + unit
  end%type.

(** What an observer of the process sees, in order: the calls sent out, and
    the entries into the provisioning client's destroy operation
    ([RoomPool._delete_room] / [RoomPool.delete_room]). *)
Inductive event : Type :=
| EvCall (c : call)
| EvDestroy (url : string).

(** The outside world answers a call from the history so far. *)
Definition oracle : Type := list event → ∀ c : call, reply c.

(** Background tasks started with [asyncio.create_task] or
    [BackgroundTasks.add_task]. *)
Inductive task : Type :=
| TaskAddRoom
| TaskAddRoomIV
| TaskMonitor (p : Z)
| TaskRunBot (session_id : string).

(** The module-level and object state of the two servers. *)
Record mem : Type := Mem {
  pool : list entry;
  room_pool_set : bool;
  active_bots : gmap string bot;
  bot_procs : gmap Z process;
  room_mappings : gmap Z string
}.

Definition set_pool (l : list entry) (m : mem) : mem :=
  Mem l (room_pool_set m) (active_bots m) (bot_procs m) (room_mappings m).

Definition set_active_bots (a : gmap string bot) (m : mem) : mem :=
  Mem (pool m) (room_pool_set m) a (bot_procs m) (room_mappings m).

Definition set_bot_procs (b : gmap Z process) (m : mem) : mem :=
  Mem (pool m) (room_pool_set m) (active_bots m) b (room_mappings m).

Definition set_room_mappings (r : gmap Z string) (m : mem) : mem :=
  Mem (pool m) (room_pool_set m) (active_bots m) (bot_procs m) r.

(** ** Coroutines *)

(** A coroutine returning an [A]. [Atomic f k] runs [f] on the state without
    suspension and continues with the state it found; [Acquire] and
    [Release] are those of the pool's [asyncio.Lock]; [ProcWait] is
    [await proc.wait()]; [WaitFor] is
    [await asyncio.wait_for(proc.wait(), timeout)]. *)
Inductive prog (A : Type) : Type :=
| Ret (a : A)
| Raise (e : exn)
| Atomic (f : mem → mem) (k : mem → prog A)
| Acquire (k : prog A)
| Release (k : prog A)
| Call (c : call) (k : reply c → prog A)
| Trace (e : event) (k : prog A)
| ProcWait (p : Z) (k : prog A)
| WaitFor (p : Z) (timeout : Z) (k : exn + unit → prog A)
| Spawn (t : task) (k : prog A).

Arguments Ret {A} a.
Arguments Raise {A} e.
Arguments Atomic {A} f k.
Arguments Acquire {A} k.
Arguments Release {A} k.
Arguments Call {A} c k.
Arguments Trace {A} e k.
Arguments ProcWait {A} p k.
Arguments WaitFor {A} p timeout k.
Arguments Spawn {A} t k.

Fixpoint bind {A B : Type} (p : prog A) (f : A → prog B) : prog B :=
  match p with
  | Ret a => f a
  | Raise e => Raise e
  | Atomic g k => Atomic g (λ m, bind (k m) f)
  | Acquire k => Acquire (bind k f)
  | Release k => Release (bind k f)
  | Call c k => Call c (λ r, bind (k r) f)
  | Trace e k => Trace e (bind k f)
  | ProcWait p k => ProcWait p (bind k f)
  | WaitFor p t k => WaitFor p t (λ r, bind (k r) f)
  | Spawn t k => Spawn t (bind k f)
  end.

#[global] Instance prog_ret : MRet prog := λ A a, Ret a.
#[global] Instance prog_bind : MBind prog := λ A B f p, bind p f.

(** [try: p except ...: h e]; a handler that does not match re-raises. *)
Fixpoint try_except {A : Type} (p : prog A) (h : exn → prog A) : prog A :=
  match p with
  | Ret a => Ret a
  | Raise e => h e
  | Atomic g k => Atomic g (λ m, try_except (k m) h)
  | Acquire k => Acquire (try_except k h)
  | Release k => Release (try_except k h)
  | Call c k => Call c (λ r, try_except (k r) h)
  | Trace e k => Trace e (try_except k h)
  | ProcWait p k => ProcWait p (try_except k h)
  | WaitFor p t k => WaitFor p t (λ r, try_except (k r) h)
  | Spawn t k => Spawn t (try_except k h)
  end.

(** [try: p finally: q]. *)
Fixpoint try_finally {A : Type} (p : prog A) (q : prog unit) : prog A :=
  match p with
  | Ret a => bind q (λ _, Ret a)
  | Raise e => bind q (λ _, Raise e)
  | Atomic g k => Atomic g (λ m, try_finally (k m) q)
  | Acquire k => Acquire (try_finally k q)
  | Release k => Release (try_finally k q)
  | Call c k => Call c (λ r, try_finally (k r) q)
  | Trace e k => Trace e (try_finally k q)
  | ProcWait p k => ProcWait p (try_finally k q)
  | WaitFor p t k => WaitFor p t (λ r, try_finally (k r) q)
  | Spawn t k => Spawn t (try_finally k q)
  end.

(** [async with self.lock: body]. *)
Definition with_lock {A : Type} (body : prog A) : prog A :=
  Acquire (try_finally body (Release (Ret tt))).

(** Reading the state, and changing it, in one step each. *)
Definition read : prog mem := Atomic id Ret.
Definition modify (f : mem → mem) : prog unit := Atomic f (λ _, Ret tt).

(** A call that raises what the outside raises. *)
Definition call_or_raise {X : Type} (c : call) (dec : reply c → exn + X) : prog X :=
  Call c (λ r, match dec r with inl e => Raise e | inr x => Ret x end).

(** [for x in l: body x]. *)
Fixpoint for_each {X : Type} (l : list X) (body : X → prog unit) : prog unit :=
  match l with
  | [] => Ret tt
  | x :: l' => bind (body x) (λ _, for_each l' body)
  end.

(** [await asyncio.gather] of a list of coroutines. [asyncio.gather]
    starts all of them and raises the first exception while the others go
    on; here they are run to completion one after another in list order,
    and the ones after the first exception are not run. *)
Fixpoint gather (ps : list (prog unit)) : prog unit :=
  match ps with
  | [] => Ret tt
  | p :: ps' => bind p (λ _, gather ps')
  end.

(** ** [server/voice-ai-service] *)

Module VoiceAI.

(** *** [utils/room_pool.py] *)

Module RoomPool.

Section Code.

(** [self.daily_api_url]. *)
Variable daily_api_url : string.

(** The final path segment of a room URL, as the private API methods
    compute it: the last item of [room_url.split] on the slash, and the
    empty string for an empty URL. *)
Definition room_name_of (room_url : string) : string :=
  if Py.truthy room_url then Py.last_item (Py.split "/"%char room_url)
  else EmptyString.

(** Private API methods. *)

(** What a request gives its caller: [None] when it raised or the status
    is not 200, else the field read from the JSON body with [result.get]. *)
Definition result_field (r : exn + Z * option string) : option string :=
  match r with
  | inl _ => None
  | inr (status, field) =>
      if bool_decide (status ≠ 200%Z) then None else field
  end.

(** Whether a delete request succeeded: not when it raised or the status
    is not 200. *)
Definition result_ok (r : exn + Z * option string) : bool :=
  match r with
  | inl _ => false
  | inr (status, _) => if bool_decide (status ≠ 200%Z) then false else true
  end.

Definition _create_room : prog (option string) :=
  let url := daily_api_url +:+ "/rooms" in
  Call (HttpPost url None) (λ r, Ret (result_field r)).

Definition _create_token (room_url : string) : prog (option string) :=
  let room_name := room_name_of room_url in
  if negb (Py.truthy room_name) then Ret None
  else
    let url := daily_api_url +:+ "/meeting-tokens" in
    Call (HttpPost url (Some room_name)) (λ r, Ret (result_field r)).

Definition _delete_room (room_url : string) : prog bool :=
  Trace (EvDestroy room_url)
    (let room_name := room_name_of room_url in
     if negb (Py.truthy room_name) then Ret false
     else
       let url := daily_api_url +:+ "/rooms/" +:+ room_name in
       Call (HttpDelete url) (λ r, Ret (result_ok r))).

(** Public methods. *)

Definition add_room : prog unit :=
  try_except
    (room_url ← _create_room;
     if negb (Py.truthy_opt room_url) then Ret tt
     else
       let room_url := default EmptyString room_url in
       user_token ← _create_token room_url;
       bot_token ← _create_token room_url;
       if negb (Py.truthy_opt user_token) || negb (Py.truthy_opt bot_token)
       then
         _ ← _delete_room room_url;
         Ret tt
       else
         with_lock
           (modify (λ m,
              set_pool
                (pool m ++ [Entry room_url
                              (default EmptyString user_token)
                              (default EmptyString bot_token)]) m)))
    (λ _, Ret tt).

Definition fill_pool (count : nat) : prog unit :=
  gather (replicate count add_room).

Definition initialize (pool_size : nat) : prog unit :=
  fill_pool pool_size.

(** [self.pool.pop(0)]. *)
Definition pop0 : prog entry :=
  Atomic (λ m, set_pool (tail (pool m)) m) (λ m,
    match pool m with
    | room :: _ => Ret room
    | [] => Raise IndexError
    end).

Definition get_room : prog entry :=
  room ← with_lock
    (m ← read;
     _ ← (if Py.is_empty (pool m) then
            _ ← add_room;
            m' ← read;
            if Py.is_empty (pool m') then
              Raise (HTTPException 503 "No available rooms")
            else Ret tt
          else Ret tt);
     pop0);
  Spawn TaskAddRoom (Ret room).

Definition delete_room (room_url : string) : prog unit :=
  _ ← _delete_room room_url;
  Ret tt.

Definition cleanup : prog unit :=
  m ← read;
  let tasks := (λ room, delete_room (room_url room)) <$> pool m in
  _ ← (if negb (Py.is_empty tasks) then gather tasks else Ret tt);
  modify (set_pool []).

End Code.

End RoomPool.

(** *** [src/bot.py], [VoiceBotManager] as the server uses it *)

Module VoiceBotManager.

(** [VoiceBotManager(room_url, token, session_id)] for a session id that is
    not empty: [self.task] is [None] until [initialize] has built the
    pipeline. *)
Definition new (room_url : string) (token : option string)
    (session_id : string) : bot :=
  Bot room_url token session_id false.

Definition set_task (b : bot) : bot :=
  Bot (b_room_url b) (b_token b) (b_session_id b) true.

(** [bot.initialize()]: the transport, the services and the pipeline are
    built by library code; when that succeeds [self.task] is set. *)
Definition initialize (session_id : string) : prog unit :=
  Call (BotInitialize session_id) (λ r,
    match r with
    | inl e => Raise e
    | inr _ =>
        modify (λ m,
          set_active_bots (alter set_task session_id (active_bots m)) m)
    end).

(** [bot.run()]. *)
Definition run (session_id : string) : prog unit :=
  call_or_raise (BotRun session_id) id.

(** [bot.disconnect()]. *)
Definition disconnect (b : bot) : prog bool :=
  if b_has_task b then
    _ ← call_or_raise (TaskCancel (b_session_id b)) id;
    Ret true
  else Ret false.

End VoiceBotManager.

(** *** [src/server.py] *)

Section Code.

(** [self.daily_api_url] of the pool, the value of [TEST_ROOM_URL] in the
    environment, and [str(e)] of an exception object (the rendering of
    FastAPI's [HTTPException] is the library's). *)
Variable daily_api_url : string.
Variable TEST_ROOM_URL : option string.
Variable str : exn → string.


Record ConnectResponse : Type := mkConnectResponse {
  cr_session_id : string;
  cr_room_url : string;
  cr_token : string
}.

Record DisconnectResponse : Type := mkDisconnectResponse {
  success : bool
}.

Definition run_bot (session_id : string) : prog unit :=
  try_finally
    (try_except
       (_ ← VoiceBotManager.initialize session_id;
        VoiceBotManager.run session_id)
       (λ _, Ret tt))
    (modify (λ m,
       if bool_decide (is_Some (active_bots m !! session_id))
       then set_active_bots (delete session_id (active_bots m)) m
       else m)).

(** [ConnectResponse(...)]: the model class has [token: str], so building
    it from [None] raises a validation error. *)
Definition make_ConnectResponse (session_id room_url : string)
    (token : option string) : prog ConnectResponse :=
  match token with
  | Some t => Ret (mkConnectResponse session_id room_url t)
  | None => Raise (LibraryError "ValidationError")
  end.

(** [POST /connect]. [background_tasks.add_task] is [Spawn]: the task is
    registered where the handler reaches that line; FastAPI runs it only
    once the handler has returned a response. *)
Definition connect : prog ConnectResponse :=
  try_except
    (m ← read;
     room ← (if room_pool_set m then
               room ← RoomPool.get_room daily_api_url;
               Ret (room_url room, Some (user_token room), Some (bot_token room))
             else
               if negb (Py.truthy_opt TEST_ROOM_URL) then
                 Raise (HTTPException 500
                          "No room pool configured and TEST_ROOM_URL not set")
               else Ret (default EmptyString TEST_ROOM_URL, None, None));
     let '(room_url, user_token, bot_token) := room in
     session_id ← Call Uuid4 Ret;
     let bot := VoiceBotManager.new room_url bot_token session_id in
     _ ← modify (λ m, set_active_bots (<[session_id := bot]> (active_bots m)) m);
     Spawn (TaskRunBot session_id)
       (make_ConnectResponse session_id room_url user_token))
    (λ e, Raise (HTTPException 500 (str e))).

Definition disconnect (session_id : string) : prog DisconnectResponse :=
  m ← read;
  match active_bots m !! session_id with
  | None => Ret (mkDisconnectResponse true)
  | Some bot =>
      _ ← try_finally
            (try_except
               (_ ← VoiceBotManager.disconnect bot; Ret tt)
               (λ _, Ret tt))
            (modify (λ m,
               if bool_decide (is_Some (active_bots m !! session_id))
               then set_active_bots (delete session_id (active_bots m)) m
               else m));
      Ret (mkDisconnectResponse true)
  end.

(** [shutdown_event]: the sessions' [disconnect] coroutines are gathered,
    then the pool is cleaned up. *)
Definition shutdown_event : prog unit :=
  m ← read;
  let tasks :=
    (λ sb : string * bot, _ ← VoiceBotManager.disconnect sb.2; Ret tt)
      <$> map_to_list (active_bots m) in
  _ ← (if negb (Py.is_empty tasks) then gather tasks else Ret tt);
  m' ← read;
  if room_pool_set m' then RoomPool.cleanup daily_api_url else Ret tt.

Record ActionResponse : Type := mkActionResponse {
  ar_success : bool;
  message : string
}.

Definition wake_bot (session_id : string) : prog ActionResponse :=
  m ← read;
  if negb (bool_decide (is_Some (active_bots m !! session_id))) then
    Raise (HTTPException 404 "Session not found")
  else
    Ret (mkActionResponse true
           "Wake functionality not implemented in simplified bot").

Definition sleep_bot (session_id : string) : prog ActionResponse :=
  m ← read;
  if negb (bool_decide (is_Some (active_bots m !! session_id))) then
    Raise (HTTPException 404 "Session not found")
  else
    Ret (mkActionResponse true
           "Sleep functionality not implemented in simplified bot").

End Code.

End VoiceAI.

(** ** [ex/instant-voice/server] *)

Module InstantVoice.

Definition NUMBER_OF_ROOMS : nat := 1.

(** *** [RoomPool] *)

Module RoomPool.

Definition add_room : prog unit :=
  try_except
    (room ← call_or_raise DailyCreateRoom id;
     if negb (Py.truthy room) then
       Raise (HTTPException 500 "Failed to create room")
     else
       user_token ← call_or_raise (DailyGetToken room) id;
       if negb (Py.truthy user_token) then
         Raise (HTTPException 500 "Failed to get user token")
       else
         bot_token ← call_or_raise (DailyGetToken room) id;
         if negb (Py.truthy bot_token) then
           Raise (HTTPException 500 "Failed to get bot token")
         else
           with_lock
             (modify (λ m,
                set_pool (pool m ++ [Entry room user_token bot_token]) m)))
    (λ _, Ret tt).

Definition fill_pool (count : nat) : prog unit :=
  for_each (replicate count tt) (λ _, add_room).

(** [self.pool.pop(0)]. *)
Definition pop0 : prog entry :=
  Atomic (λ m, set_pool (tail (pool m)) m) (λ m,
    match pool m with
    | room :: _ => Ret room
    | [] => Raise IndexError
    end).

Definition get_room : prog entry :=
  room ← with_lock
    (m ← read;
     if Py.is_empty (pool m) then
       Raise (HTTPException 503 "No available rooms")
     else pop0);
  Spawn TaskAddRoomIV (Ret room).

Definition delete_room (room_url : string) : prog unit :=
  Trace (EvDestroy room_url)
    (call_or_raise (DailyDeleteRoomByUrl room_url) id).

(** The loop runs over the buffer as [cleanup] finds it; the Python loop
    walks the live list, which is the same list as long as no other
    coroutine appends to it meanwhile. *)
Definition cleanup : prog unit :=
  m ← read;
  for_each (pool m) (λ rooms, delete_room (room_url rooms)).

End RoomPool.

(** *** [BotManager] *)

Module BotManager.

Section Code.

(** [str(e)] of an exception object. *)
Variable str : exn → string.

Definition start_bot (room_url token : string) : prog Z :=
  let bot_file := "single_bot" in
  let command :=
    "python3 -m " +:+ bot_file +:+ " -u " +:+ room_url +:+ " -t " +:+ token in
  try_except
    (proc ← call_or_raise (CreateSubprocessShell command) id;
     match pid proc with
     | None => Raise (HTTPException 500 "Failed to get subprocess PID")
     | Some p =>
         _ ← modify (λ m,
               set_room_mappings (<[p := room_url]> (room_mappings m))
                 (set_bot_procs (<[p := proc]> (bot_procs m)) m));
         Spawn (TaskMonitor p) (Ret p)
     end)
    (λ e, Raise (HTTPException 500 ("Failed to start subprocess: " +:+ str e))).

(** [self.room_mappings.pop(pid, None)]. *)
Definition pop_mapping (p : Z) : prog (option string) :=
  Atomic (λ m, set_room_mappings (delete p (room_mappings m)) m)
    (λ m, Ret (room_mappings m !! p)).

(** [del self.bot_procs[pid]]. *)
Definition del_bot_proc (p : Z) : prog unit :=
  Atomic (λ m, set_bot_procs (delete p (bot_procs m)) m) (λ m,
    match bot_procs m !! p with
    | Some _ => Ret tt
    | None => Raise KeyError
    end).

Definition _monitor_process (p : Z) : prog unit :=
  m ← read;
  match bot_procs m !! p with
  | None => Ret tt
  | Some proc =>
      ProcWait (proc_id proc)
        (room_url ← pop_mapping p;
         _ ← (if Py.truthy_opt room_url then
                RoomPool.delete_room (default EmptyString room_url)
              else Ret tt);
         del_bot_proc p)
  end.

(** The body of the loop of [BotManager.cleanup], for one item
    [(pid, proc)] of [bot_procs]. *)
Definition cleanup_one (p : Z) (proc : process) : prog unit :=
  try_except
    (_ ← call_or_raise (ProcTerminate (proc_id proc)) id;
     _ ← WaitFor (proc_id proc) 5 (λ r,
           match r with
           | inl e => Raise e
           | inr _ => Ret tt
           end);
     room_url ← pop_mapping p;
     if Py.truthy_opt room_url then
       RoomPool.delete_room (default EmptyString room_url)
     else Ret tt)
    (λ e, if is_TimeoutError e then Ret tt else Ret tt).

(** The loop visits [list(self.bot_procs.items())]: Python gives the items
    in insertion order, the map in the order of its keys. *)
Definition cleanup : prog unit :=
  m ← read;
  _ ← for_each (map_to_list (bot_procs m)) (λ item, cleanup_one item.1 item.2);
  modify (λ m, set_room_mappings ∅ (set_bot_procs ∅ m)).

End Code.

End BotManager.

(** *** The application *)

Section Code.

(** [str(e)] of an exception object. *)
Variable str : exn → string.

(** The part of [lifespan] after [yield]. *)
Definition lifespan_shutdown : prog unit :=
  _ ← BotManager.cleanup;
  RoomPool.cleanup.

(** [POST /connect]: the returned dict, as its items. *)
Definition bot_connect : prog (list (string * string)) :=
  try_except
    (room ← RoomPool.get_room;
     _ ← BotManager.start_bot str (room_url room) (bot_token room);
     Ret [("room_url", room_url room); ("token", user_token room)])
    (λ e, if is_HTTPException e then Ret [("error", str e)] else Raise e).

End Code.

End InstantVoice.

(** ** The machine *)

(** The world a coroutine runs in: the outside, the state of the process,
    the pool's lock, what has been observed so far, and the worker
    processes that have exited. *)
Record world : Type := World {
  w_env : oracle;
  w_mem : mem;
  w_locked : bool;
  w_log : list event;
  w_exited : gset Z
}.

Definition set_mem (m : mem) (w : world) : world :=
  World (w_env w) m (w_locked w) (w_log w) (w_exited w).

Definition set_locked (b : bool) (w : world) : world :=
  World (w_env w) (w_mem w) b (w_log w) (w_exited w).

Definition add_log (e : event) (w : world) : world :=
  World (w_env w) (w_mem w) (w_locked w) (w_log w ++ [e]) (w_exited w).

Definition add_exited (p : Z) (w : world) : world :=
  World (w_env w) (w_mem w) (w_locked w) (w_log w) ({[p]} ∪ w_exited w).

(** One step of a coroutine: [None] when it has finished or cannot go on
    (the lock is taken, the process has not exited). [timed_out] says that
    the timeout of a pending [wait_for] has expired. The third component is
    the tasks the step created. *)
Definition step {A : Type} (timed_out : bool) (p : prog A) (w : world)
    : option (prog A * world * list task) :=
  match p with
  | Ret _ => None
  | Raise _ => None
  | Atomic f k => Some (k (w_mem w), set_mem (f (w_mem w)) w, [])
  | Acquire k =>
      if w_locked w then None else Some (k, set_locked true w, [])
  | Release k => Some (k, set_locked false w, [])
  | Call c k => Some (k (w_env w (w_log w) c), add_log (EvCall c) w, [])
  | Trace e k => Some (k, add_log e w, [])
  | ProcWait p k =>
      if bool_decide (p ∈ w_exited w) then Some (k, w, []) else None
  | WaitFor p _ k =>
      if bool_decide (p ∈ w_exited w) then Some (k (inr tt), w, [])
      else if timed_out then Some (k (inl TimeoutError), w, [])
      else None
  | Spawn t k => Some (k, w, [t])
  end.

Inductive who : Type :=
| Main
| Bg (i : nat).

(** What can happen next: a coroutine takes a step, the timeout of the
    [wait_for] a coroutine is suspended in expires, or a worker process
    exits. *)
Inductive action : Type :=
| Run (t : who)
| Timeout (t : who)
| ProcExit (p : Z).

Record config (R : Type) : Type := Config {
  main : prog R;
  bg : list (prog unit);
  cw : world
}.

Arguments Config {R} main bg cw.
Arguments main {R} c.
Arguments bg {R} c.
Arguments cw {R} c.

Section Machine.

Variable daily_api_url : string.

(** The coroutine a task runs. *)
Definition code (t : task) : prog unit :=
  match t with
  | TaskAddRoom => VoiceAI.RoomPool.add_room daily_api_url
  | TaskAddRoomIV => InstantVoice.RoomPool.add_room
  | TaskMonitor p => InstantVoice.BotManager._monitor_process p
  | TaskRunBot session_id => VoiceAI.run_bot session_id
  end.

Context {R : Type}.

Definition step_task (timed_out : bool) (t : who) (c : config R) : config R :=
  match t with
  | Main =>
      match step timed_out (main c) (cw c) with
      | Some (p', w', ts) => Config p' (bg c ++ (code <$> ts)) w'
      | None => c
      end
  | Bg i =>
      match bg c !! i with
      | Some p =>
          match step timed_out p (cw c) with
          | Some (p', w', ts) =>
              Config (main c) (<[i := p']> (bg c) ++ (code <$> ts)) w'
          | None => c
          end
      | None => c
      end
  end.

(** An action that is not enabled leaves the configuration as it is. *)
Definition exec_action (c : config R) (a : action) : config R :=
  match a with
  | Run t => step_task false t c
  | Timeout t => step_task true t c
  | ProcExit p => Config (main c) (bg c) (add_exited p (cw c))
  end.

Definition exec (acts : list action) (c : config R) : config R :=
  foldl exec_action c acts.

(** The foreground coroutine alone, for [n] steps. *)
Definition run (n : nat) (c : config R) : config R :=
  exec (replicate n (Run Main)) c.

End Machine.

Arguments code : simpl never.
Arguments exec : simpl never.
Arguments run : simpl never.

(** A schedule of the foreground coroutine alone. *)
Definition solo (acts : list action) : Prop :=
  Forall (λ a, a = Run Main ∨ a = Timeout Main) acts.

(** ** A coroutine run on its own *)

(** How a coroutine ends when nothing else runs: it returns, it raises, or
    it stays suspended for ever at [p]. *)
Inductive outcome (A : Type) : Type :=
| Returned (a : A)
| Raised (e : exn)
| Blocked (p : prog A).

Arguments Returned {A} a.
Arguments Raised {A} e.
Arguments Blocked {A} p.

(** The coroutine [p] run to its end from [w] with no other coroutine
    running and no worker exiting meanwhile: the outcome, the world it
    leaves, and the tasks it created. A [wait_for] on a worker that has not
    exited times out. *)
Fixpoint eval {A : Type} (p : prog A) (w : world)
    : outcome A * world * list task :=
  match p with
  | Ret a => (Returned a, w, [])
  | Raise e => (Raised e, w, [])
  | Atomic f k => eval (k (w_mem w)) (set_mem (f (w_mem w)) w)
  | Acquire k =>
      if w_locked w then (Blocked p, w, []) else eval k (set_locked true w)
  | Release k => eval k (set_locked false w)
  | Call c k => eval (k (w_env w (w_log w) c)) (add_log (EvCall c) w)
  | Trace e k => eval k (add_log e w)
  | ProcWait q k =>
      if bool_decide (q ∈ w_exited w) then eval k w else (Blocked p, w, [])
  | WaitFor q _ k =>
      if bool_decide (q ∈ w_exited w) then eval (k (inr tt)) w
      else eval (k (inl TimeoutError)) w
  | Spawn t k =>
      let '(o, w', ts) := eval k w in (o, w', t :: ts)
  end.

(** The coroutine an outcome leaves in the machine. *)
Definition residual {A : Type} (o : outcome A) : prog A :=
  match o with
  | Returned a => Ret a
  | Raised e => Raise e
  | Blocked p => p
  end.

(** What follows an outcome of [p] in [bind p f], [try_except p h] and
    [try_finally p q]. *)
Definition then_eval {A B : Type} (r : outcome A * world * list task)
    (f : A → prog B) : outcome B * world * list task :=
  match r with
  | (Returned a, w, ts) =>
      let '(o, w', ts') := eval (f a) w in (o, w', ts ++ ts')
  | (Raised e, w, ts) => (Raised e, w, ts)
  | (Blocked p, w, ts) => (Blocked (bind p f), w, ts)
  end.

Definition except_eval {A : Type} (r : outcome A * world * list task)
    (h : exn → prog A) : outcome A * world * list task :=
  match r with
  | (Returned a, w, ts) => (Returned a, w, ts)
  | (Raised e, w, ts) =>
      let '(o, w', ts') := eval (h e) w in (o, w', ts ++ ts')
  | (Blocked p, w, ts) => (Blocked (try_except p h), w, ts)
  end.

Definition finally_eval {A : Type} (r : outcome A * world * list task)
    (q : prog unit) : outcome A * world * list task :=
  match r with
  | (Returned a, w, ts) =>
      let '(o, w', ts') := eval (bind q (λ _, Ret a)) w in (o, w', ts ++ ts')
  | (Raised e, w, ts) =>
      let '(o, w', ts') := eval (bind q (λ _, Raise e)) w in (o, w', ts ++ ts')
  | (Blocked p, w, ts) => (Blocked (try_finally p q), w, ts)
  end.

(** The foreground coroutine has neither returned nor raised. *)
Definition pending {A : Type} (p : prog A) : Prop :=
  match p with
  | Ret _ => False
  | Raise _ => False
  | _ => True
  end.

(** ** Observations *)

(** The destroy operations observed for a room. *)
Definition is_destroy (url : string) (e : event) : bool :=
  match e with
  | EvDestroy u => bool_decide (u = url)
  | EvCall _ => false
  end.

Definition destroys (url : string) (log : list event) : nat :=
  length (List.filter (is_destroy url) log).

(** The rooms for which the destroy operation was entered, in order. *)
Definition destroy_trace (log : list event) : list string :=
  omap (λ e, match e with EvDestroy u => Some u | EvCall _ => None end) log.

(** The room creations requested from the provisioning service. *)
Definition is_create (e : event) : bool :=
  match e with
  | EvCall (HttpPost _ None) => true
  | EvCall DailyCreateRoom => true
  | _ => false
  end.

Definition creates (log : list event) : nat :=
  length (List.filter is_create log).

(** ** Who can release the lock *)

(** [p] does not release the lock unless it acquires it first. *)
Fixpoint no_release {A : Type} (p : prog A) : Prop :=
  match p with
  | Ret _ => True
  | Raise _ => True
  | Atomic _ k => ∀ m, no_release (k m)
  | Acquire _ => True
  | Release _ => False
  | Call _ k => ∀ r, no_release (k r)
  | Trace _ k => no_release k
  | ProcWait _ k => no_release k
  | WaitFor _ _ k => ∀ r, no_release (k r)
  | Spawn _ k => no_release k
  end.

(** [p] neither finishes nor releases the lock before it tries to acquire
    it, whatever the state it reads and whatever history the outside
    answers from. *)
Fixpoint awaits_lock (env : oracle) {A : Type} (p : prog A) : Prop :=
  match p with
  | Ret _ => False
  | Raise _ => False
  | Atomic _ k => ∀ m, awaits_lock env (k m)
  | Acquire _ => True
  | Release _ => False
  | Call c k => ∀ h, awaits_lock env (k (env h c))
  | Trace _ k => awaits_lock env k
  | ProcWait _ k => awaits_lock env k
  | WaitFor _ _ k => ∀ r, awaits_lock env (k r)
  | Spawn _ k => awaits_lock env k
  end.

(** The provisioning service always creates a room, with a URL that has a
    room name, and always mints a token for it. *)
Definition always_provisions (api : string) (env : oracle) : Prop :=
  ∀ h, ∃ url,
    VoiceAI.RoomPool.result_field (env h (HttpPost (api +:+ "/rooms") None)) = Some url ∧
    Py.truthy url = true ∧
    Py.truthy (VoiceAI.RoomPool.room_name_of url) = true ∧
    ∀ h', Py.truthy_opt
            (VoiceAI.RoomPool.result_field
               (env h' (HttpPost (api +:+ "/meeting-tokens")
                          (Some (VoiceAI.RoomPool.room_name_of url))))) = true.

(** The call holds the lock and is on its way to acquiring it again, and
    no other coroutine will release it. *)
Definition deadlocked {R : Type} (env : oracle) (c : config R) : Prop :=
  w_locked (cw c) = true ∧ w_env (cw c) = env ∧
  awaits_lock env (main c) ∧ Forall no_release (bg c).


(** ** Sample inputs *)

Definition sample_api : string := "https://api.daily.co/v1".

Definition sample_mem (l : list entry) : mem := Mem l true ∅ ∅ ∅.

Definition room_a : entry := Entry "https://x.daily.co/a" "user-a" "bot-a".
Definition room_b : entry := Entry "https://x.daily.co/b" "user-b" "bot-b".

(** A provisioning service and an operating system that always succeed. *)
Definition env_up : oracle := λ _ c,
  match c return reply c with
  | HttpPost _ None => inr (200%Z, Some "https://x.daily.co/new")
  | HttpPost _ (Some _) => inr (200%Z, Some "tok")
  | HttpDelete _ => inr (200%Z, None)
  | DailyCreateRoom => inr "https://x.daily.co/new"
  | DailyGetToken _ => inr "tok"
  | DailyDeleteRoomByUrl _ => inr tt
  | CreateSubprocessShell _ => inr (Process 7 (Some 7%Z))
  | ProcTerminate _ => inr tt
  | Uuid4 => "sid-1"
  | BotInitialize _ => inr tt
  | BotRun _ => inr tt
  | TaskCancel _ => inr tt
  end.

(** A provisioning service that is down, and an operating system that
    cannot start a process. *)
Definition env_down : oracle := λ _ c,
  match c return reply c with
  | HttpPost _ _ => inr (500%Z, None)
  | HttpDelete _ => inr (500%Z, None)
  | DailyCreateRoom => inl (LibraryError "service unavailable")
  | DailyGetToken _ => inl (LibraryError "service unavailable")
  | DailyDeleteRoomByUrl _ => inl (LibraryError "service unavailable")
  | CreateSubprocessShell _ => inl (LibraryError "cannot fork")
  | ProcTerminate _ => inr tt
  | Uuid4 => "sid-1"
  | BotInitialize _ => inl (LibraryError "no transport")
  | BotRun _ => inr tt
  | TaskCancel _ => inr tt
  end.

Definition sample_world (env : oracle) (l : list entry) : world :=
  World env (sample_mem l) false [] ∅.

(** A provisioning service that creates rooms and mints no token. *)
Definition env_no_token : oracle := λ h c,
  match c return reply c with
  | HttpPost _ (Some _) => inr (500%Z, None)
  | DailyGetToken _ => inl (LibraryError "token refused")
  | c' => env_up h c'
  end.

(** A provisioning service that is down, with a working operating system. *)
Definition env_no_rooms : oracle := λ h c,
  match c return reply c with
  | HttpPost _ _ => inr (500%Z, None)
  | DailyCreateRoom => inl (LibraryError "service unavailable")
  | DailyGetToken _ => inl (LibraryError "service unavailable")
  | c' => env_up h c'
  end.

(** A rendering of exceptions: [HTTPException] as Starlette prints it. *)
Definition sample_str (e : exn) : string :=
  match e with
  | HTTPException status detail => pretty status +:+ ": " +:+ detail
  | TimeoutError => EmptyString
  | KeyError => "key"
  | IndexError => "pop from empty list"
  | LibraryError msg => msg
  end.
(** ** Rooms bound to sessions *)

(** The rooms of the sessions registered in [room_mappings], with
    multiplicity: one occurrence per session. *)
Definition tokens (m : mem) : gmultiset string :=
  list_to_set_disj ((map_to_list (room_mappings m)).*2).

(** The rooms for which the destroy operation was entered, with
    multiplicity. *)
Definition destroyed (log : list event) : gmultiset string :=
  list_to_set_disj (destroy_trace log).

(** [p], holding the rooms [held] that it has taken out of
    [room_mappings], registers no room, enters the destroy operation only
    for rooms it holds, each once, and creates no task. *)
Fixpoint disciplined {A : Type} (p : prog A) (held : gmultiset string)
    {struct p} : Prop :=
  match p with
  | Ret _ => True
  | Raise _ => True
  | Atomic f k =>
      ∀ m, ∃ held',
        tokens (f m) ⊎ held' ⊆ tokens m ⊎ held ∧ disciplined (k m) held'
  | Acquire k => disciplined k held
  | Release k => disciplined k held
  | Call _ k => ∀ r, disciplined (k r) held
  | Trace (EvDestroy u) k => u ∈ held ∧ disciplined k (held ∖ {[+ u +]})
  | Trace (EvCall _) k => disciplined k held
  | ProcWait _ k => disciplined k held
  | WaitFor _ _ k => ∀ r, disciplined (k r) held
  | Spawn _ _ => False
  end.

Arguments tokens : simpl never.
Arguments destroyed : simpl never.

(** The rooms held by a list of coroutines. *)
Definition total (hs : list (gmultiset string)) : gmultiset string :=
  foldr (⊎) ∅ hs.

Arguments total : simpl never.

(** Every room is accounted for at most as often as in [T]: destroyed,
    still registered, or held by a coroutine that has taken it out. *)
Definition accounted {R : Type} (T : gmultiset string) (c : config R) : Prop :=
  ∃ hm hbs,
    disciplined (main c) hm ∧
    Forall2 (λ p h, disciplined p h) (bg c) hbs ∧
    destroyed (w_log (cw c)) ⊎ tokens (w_mem (cw c)) ⊎ hm ⊎ total hbs ⊆ T.

(** A manager with one worker, process 7, bound to [room_a]. *)
Definition one_worker_mem : mem :=
  Mem [] true ∅ {[7%Z := Process 7 (Some 7%Z)]} {[7%Z := room_url room_a]}.

(** A registry with one session, bound to [room_a], whose pipeline task
    exists. *)
Definition one_session_mem : mem :=
  Mem [] true {["sid-1" := Bot (room_url room_a) (Some "bot-a") "sid-1" true]} ∅ ∅.

(** ** Room names *)

(** [s] has no slash in it. *)
Definition no_slash (s : string) : Prop :=
  "/"%char ∉ String.list_ascii_of_string s.

(** ** Entries of the buffer *)

(** An entry as [add_room] of [room_pool.py] builds it: a room URL with a
    room name, and two tokens, none of them empty. *)
Definition entry_ok (e : entry) : Prop :=
  Py.truthy (room_url e) = true ∧
  Py.truthy (VoiceAI.RoomPool.room_name_of (room_url e)) = true ∧
  Py.truthy (user_token e) = true ∧
  Py.truthy (bot_token e) = true.

(** A provisioning service whose room URLs end in a slash. *)
Definition env_slash : oracle := λ h c,
  match c return reply c with
  | HttpPost _ None => inr (200%Z, Some "https://x.daily.co/")
  | c' => env_up h c'
  end.

(** A provisioning service that cannot delete rooms. *)
Definition env_no_delete : oracle := λ h c,
  match c return reply c with
  | DailyDeleteRoomByUrl _ => inl (LibraryError "service unavailable")
  | c' => env_up h c'
  end.

(** The processes that were sent the [terminate] signal, in order. *)
Definition terminations (log : list event) : list Z :=
  omap (λ e, match e with
             | EvCall (ProcTerminate q) => Some q
             | _ => None
             end) log.

(** What the loop of [BotManager.cleanup] over [items] makes of a world:
    only the log and [room_mappings] change; every item is signalled once,
    in order; a destroy operation is entered only for the room mapped to
    an item whose process has exited. *)
Definition cleanup_loop_post (items : list (Z * process)) (w w' : world) : Prop :=
  w_env w' = w_env w ∧ w_locked w' = w_locked w ∧ w_exited w' = w_exited w ∧
  pool (w_mem w') = pool (w_mem w) ∧
  active_bots (w_mem w') = active_bots (w_mem w) ∧
  bot_procs (w_mem w') = bot_procs (w_mem w) ∧
  room_mappings (w_mem w') ⊆ room_mappings (w_mem w) ∧
  terminations (w_log w') = terminations (w_log w) ++ ((proc_id ∘ snd) <$> items) ∧
  ∃ new,
    destroy_trace (w_log w') = destroy_trace (w_log w) ++ new ∧
    Forall (λ u, ∃ item, item ∈ items ∧
                   room_mappings (w_mem w) !! item.1 = Some u ∧
                   proc_id item.2 ∈ w_exited w) new.

(** An entry as [add_room] of instant-voice builds it: a room URL and two
    tokens, none of them empty. *)
Definition iv_entry_ok (e : entry) : Prop :=
  Py.truthy (room_url e) = true ∧
  Py.truthy (user_token e) = true ∧
  Py.truthy (bot_token e) = true.

(** What [add_room] of instant-voice, run [n] times with the lock free,
    makes of a world: the lock is free again, only the buffer and the log
    change, [n] rooms were requested, no destroy operation was entered, and
    the buffer has grown at its end by at most [n] entries. *)
Definition iv_add_room_post (n : nat) (w w' : world) : Prop :=
  w_locked w' = false ∧
  w_env w' = w_env w ∧ w_exited w' = w_exited w ∧
  bot_procs (w_mem w') = bot_procs (w_mem w) ∧
  room_mappings (w_mem w') = room_mappings (w_mem w) ∧
  creates (w_log w') = creates (w_log w) + n ∧
  destroy_trace (w_log w') = destroy_trace (w_log w) ∧
  ∃ new,
    pool (w_mem w') = pool (w_mem w) ++ new ∧
    length new ≤ n ∧
    Forall iv_entry_ok new.

(** The sessions whose pipeline task was cancelled, in order. *)
Definition cancellations (log : list event) : list string :=
  omap (λ e, match e with
             | EvCall (TaskCancel s) => Some s
             | _ => None
             end) log.

(** An operating system in which cancelling a pipeline task fails. *)
Definition env_no_cancel : oracle := λ h c,
  match c return reply c with
  | TaskCancel _ => inl (LibraryError "cancel failed")
  | c' => env_up h c'
  end.

(** * Properties *)

(** ** The evaluator follows the structure of the code *)

Lemma eval_bind {A B : Type} (p : prog A) (f : A → prog B) (w : world) :
  eval (bind p f) w = then_eval (eval p w) f.
Proof.
  revert w. induction p as [a|e|g k IH|k IH|k IH|c k IH|e k IH|q k IH|q t k IH|t k IH];
    intros w; cbn.
  - by destruct (eval (f a) w) as [[o w'] ts].
  - done.
  - apply IH.
  - destruct (w_locked w); [done|apply IH].
  - apply IH.
  - apply IH.
  - apply IH.
  - destruct (bool_decide (q ∈ w_exited w)); [apply IH|done].
  - destruct (bool_decide (q ∈ w_exited w)); apply IH.
  - rewrite IH. destruct (eval k w) as [[[a|e|p] w'] ts]; cbn; [|done..].
    by destruct (eval (f a) w') as [[o w''] ts'].
Qed.

Lemma eval_mbind {A B : Type} (p : prog A) (f : A → prog B) (w : world) :
  eval (p ≫= f) w = then_eval (eval p w) f.
Proof. apply eval_bind. Qed.

Lemma eval_try_except {A : Type} (p : prog A) (h : exn → prog A) (w : world) :
  eval (try_except p h) w = except_eval (eval p w) h.
Proof.
  revert w. induction p as [a|e|g k IH|k IH|k IH|c k IH|e k IH|q k IH|q t k IH|t k IH];
    intros w; cbn.
  - done.
  - by destruct (eval (h e) w) as [[o w'] ts].
  - apply IH.
  - destruct (w_locked w); [done|apply IH].
  - apply IH.
  - apply IH.
  - apply IH.
  - destruct (bool_decide (q ∈ w_exited w)); [apply IH|done].
  - destruct (bool_decide (q ∈ w_exited w)); apply IH.
  - rewrite IH. destruct (eval k w) as [[[a|e|p] w'] ts]; cbn; [done| |done].
    by destruct (eval (h e) w') as [[o w''] ts'].
Qed.

Lemma eval_try_finally {A : Type} (p : prog A) (q : prog unit) (w : world) :
  eval (try_finally p q) w = finally_eval (eval p w) q.
Proof.
  revert w. induction p as [a|e|g k IH|k IH|k IH|c k IH|e k IH|r k IH|r t k IH|t k IH];
    intros w; cbn.
  - by destruct (eval (bind q _) w) as [[o w'] ts].
  - by destruct (eval (bind q _) w) as [[o w'] ts].
  - apply IH.
  - destruct (w_locked w); [done|apply IH].
  - apply IH.
  - apply IH.
  - apply IH.
  - destruct (bool_decide (r ∈ w_exited w)); [apply IH|done].
  - destruct (bool_decide (r ∈ w_exited w)); apply IH.
  - rewrite IH. destruct (eval k w) as [[[a|e|p] w'] ts]; cbn; [| |done].
    + by destruct (eval (bind q _) w') as [[o w''] ts'].
    + by destruct (eval (bind q _) w') as [[o w''] ts'].
Qed.

(** ** The machine runs a coroutine to the outcome the evaluator gives *)

Section MachineFacts.

Variable api : string.
Context {R : Type}.

Lemma exec_nil (c : config R) : exec api [] c = c.
Proof. reflexivity. Qed.

Lemma exec_cons (a : action) (acts : list action) (c : config R) :
  exec api (a :: acts) c = exec api acts (exec_action api c a).
Proof. reflexivity. Qed.

Lemma exec_app (acts1 acts2 : list action) (c : config R) :
  exec api (acts1 ++ acts2) c = exec api acts2 (exec api acts1 c).
Proof. unfold exec. apply foldl_app. Qed.

Lemma exec_eval (p : prog R) (bgs : list (prog unit)) (w : world) :
  ∃ acts, solo acts ∧
    exec api acts (Config p bgs w) =
      Config (residual (eval p w).1.1)
             (bgs ++ (code api <$> (eval p w).2)) (eval p w).1.2.
Proof.
  revert bgs w.
  induction p as [a|e|g k IH|k IH|k IH|c k IH|e k IH|q k IH|q t k IH|t k IH];
    intros bgs w; cbn.
  - exists []. split; [constructor|]. by rewrite exec_nil, app_nil_r.
  - exists []. split; [constructor|]. by rewrite exec_nil, app_nil_r.
  - destruct (IH (w_mem w) bgs (set_mem (g (w_mem w)) w)) as (acts & Hs & He).
    exists (Run Main :: acts). split; [constructor; auto|].
    rewrite exec_cons. cbn. by rewrite app_nil_r.
  - destruct (w_locked w) eqn:Hl.
    + exists []. split; [constructor|]. by rewrite exec_nil, app_nil_r.
    + destruct (IH bgs (set_locked true w)) as (acts & Hs & He).
      exists (Run Main :: acts). split; [constructor; auto|].
      rewrite exec_cons. cbn. rewrite Hl. by rewrite app_nil_r.
  - destruct (IH bgs (set_locked false w)) as (acts & Hs & He).
    exists (Run Main :: acts). split; [constructor; auto|].
    rewrite exec_cons. cbn. by rewrite app_nil_r.
  - destruct (IH (w_env w (w_log w) c) bgs (add_log (EvCall c) w)) as (acts & Hs & He).
    exists (Run Main :: acts). split; [constructor; auto|].
    rewrite exec_cons. cbn. by rewrite app_nil_r.
  - destruct (IH bgs (add_log e w)) as (acts & Hs & He).
    exists (Run Main :: acts). split; [constructor; auto|].
    rewrite exec_cons. cbn. by rewrite app_nil_r.
  - destruct (bool_decide (q ∈ w_exited w)) eqn:Hq.
    + destruct (IH bgs w) as (acts & Hs & He).
      exists (Run Main :: acts). split; [constructor; auto|].
      rewrite exec_cons. cbn. rewrite Hq. by rewrite app_nil_r.
    + exists []. split; [constructor|]. by rewrite exec_nil, app_nil_r.
  - destruct (bool_decide (q ∈ w_exited w)) eqn:Hq.
    + destruct (IH (inr tt) bgs w) as (acts & Hs & He).
      exists (Run Main :: acts). split; [constructor; auto|].
      rewrite exec_cons. cbn. rewrite Hq. by rewrite app_nil_r.
    + destruct (IH (inl TimeoutError) bgs w) as (acts & Hs & He).
      exists (Timeout Main :: acts). split; [constructor; auto|].
      rewrite exec_cons. cbn. rewrite Hq. by rewrite app_nil_r.
  - destruct (IH (bgs ++ [code api t]) w) as (acts & Hs & He).
    exists (Run Main :: acts). split; [constructor; auto|].
    rewrite exec_cons. cbn. rewrite He.
    destruct (eval k w) as [[o w'] ts]; cbn.
    by rewrite <- app_assoc.
Qed.

End MachineFacts.

(** ** The on-demand path of [get_room] waits for its own lock *)

Section Deadlock.
Variable api : string.

Lemma no_release_bind {A B} (p : prog A) (f : A → prog B) :
  no_release p → (∀ a, no_release (f a)) → no_release (bind p f).
Proof.
  intros Hp Hf. induction p; cbn in *; auto; done.
Qed.

Lemma no_release_try_except {A} (p : prog A) (h : exn → prog A) :
  no_release p → (∀ e, no_release (h e)) → no_release (try_except p h).
Proof.
  intros Hp Hf. induction p; cbn in *; auto; done.
Qed.

Lemma no_release_try_finally {A} (p : prog A) (q : prog unit) :
  no_release p → no_release q → no_release (try_finally p q).
Proof.
  intros Hp Hq. induction p; cbn in *; auto using no_release_bind; done.
Qed.

Ltac walk_prog :=
  repeat first
    [ exact I
    | progress intros
    | progress cbn
    | progress unfold VoiceAI.RoomPool._create_token, mbind, prog_bind
    | case_match ].

Lemma no_release_code (t : task) : no_release (code api t).
Proof.
  destruct t; unfold code.
  - apply no_release_try_except; [|done]. walk_prog.
  - apply no_release_try_except; [|done]. walk_prog.
  - walk_prog.
  - walk_prog.
Qed.

Lemma awaits_lock_pending {A} env (p : prog A) : awaits_lock env p → pending p.
Proof. by destruct p. Qed.

Lemma step_awaits_lock {A} env (p : prog A) (w : world) (b : bool) :
  awaits_lock env p → w_locked w = true → w_env w = env →
  match step b p w with
  | Some (p', w', ts) => awaits_lock env p' ∧ w_locked w' = true ∧ w_env w' = env
  | None => True
  end.
Proof.
  intros Hp Hl He. destruct p; cbn in *; try done.
  all: repeat case_match; simplify_eq; done.
Qed.

Lemma step_no_release {A} (p : prog A) (w : world) (b : bool) :
  no_release p → w_locked w = true →
  match step b p w with
  | Some (p', w', ts) => no_release p' ∧ w_locked w' = true ∧ w_env w' = w_env w
  | None => True
  end.
Proof.
  intros Hp Hl. destruct p; cbn in *; try done.
  all: repeat case_match; simplify_eq; done.
Qed.

Lemma deadlocked_step {R} env (c : config R) (a : action) :
  deadlocked env c → deadlocked env (exec_action api c a).
Proof.
  intros (Hl & He & Hm & Hb). destruct a as [[|i]|[|i]|q]; cbn.
  - pose proof (step_awaits_lock env (main c) (cw c) false Hm Hl He) as Hs.
    destruct (step false (main c) (cw c)) as [[[p' w'] ts]|]; [|done].
    destruct Hs as (? & ? & ?). repeat split; try done. cbn.
    apply Forall_app. split; [done|]. apply Forall_fmap, Forall_forall.
    intros t _. apply no_release_code.
  - destruct (bg c !! i) as [p|] eqn:Hi; [|done].
    pose proof (step_no_release p (cw c) false) as Hs.
    destruct (step false p (cw c)) as [[[p' w'] ts]|]; [|done].
    destruct Hs as (? & ? & ?); [by eapply Forall_lookup_1|done|].
    repeat split; try done; cbn; [congruence|].
    apply Forall_app. split; [by apply Forall_insert|].
    apply Forall_fmap, Forall_forall. intros t _. apply no_release_code.
  - pose proof (step_awaits_lock env (main c) (cw c) true Hm Hl He) as Hs.
    destruct (step true (main c) (cw c)) as [[[p' w'] ts]|]; [|done].
    destruct Hs as (? & ? & ?). repeat split; try done. cbn.
    apply Forall_app. split; [done|]. apply Forall_fmap, Forall_forall.
    intros t _. apply no_release_code.
  - destruct (bg c !! i) as [p|] eqn:Hi; [|done].
    pose proof (step_no_release p (cw c) true) as Hs.
    destruct (step true p (cw c)) as [[[p' w'] ts]|]; [|done].
    destruct Hs as (? & ? & ?); [by eapply Forall_lookup_1|done|].
    repeat split; try done; cbn; [congruence|].
    apply Forall_app. split; [by apply Forall_insert|].
    apply Forall_fmap, Forall_forall. intros t _. apply no_release_code.
  - done.
Qed.

Lemma deadlocked_exec {R} env (acts : list action) (c : config R) :
  deadlocked env c → deadlocked env (exec api acts c).
Proof.
  revert c. induction acts as [|a acts IH]; intros c Hc; [done|].
  change (exec api (a :: acts) c) with (exec api acts (exec_action api c a)).
  by apply IH, deadlocked_step.
Qed.

Lemma get_room_deadlocked env m lg ex bgs :
  always_provisions api env → Forall no_release bgs →
  deadlocked env
    (exec api [Run Main; Run Main]
       (Config (VoiceAI.RoomPool.get_room api) bgs (World env (set_pool [] m) false lg ex))).
Proof.
  intros Hp Hb. unfold exec. cbn. repeat split; cbn.
  - intros h. destruct (Hp h) as (url & -> & Hu & Hn & Ht). cbn. rewrite Hu. cbn.
    unfold VoiceAI.RoomPool._create_token. rewrite Hn. cbn.
    intros h1 h2. rewrite (Ht h1), (Ht h2). cbn. done.
  - by rewrite !app_nil_r.
Qed.

(** C3: a [get_room] call of [room_pool.py] that has taken the lock and
    found the buffer empty never returns when the room creation and the
    token mints succeed: it holds the lock while [add_room] waits for it.
    This holds under every schedule, with any other coroutines that only
    release a lock they have acquired. *)
Theorem get_room_on_demand_never_returns env m lg ex bgs acts :
  always_provisions api env → Forall no_release bgs →
  pending
    (main (exec api (Run Main :: Run Main :: acts)
             (Config (VoiceAI.RoomPool.get_room api) bgs
                (World env (set_pool [] m) false lg ex)))).
Proof.
  intros Hp Hb.
  change (Run Main :: Run Main :: acts) with ([Run Main; Run Main] ++ acts).
  unfold exec. rewrite foldl_app.
  eapply awaits_lock_pending, (deadlocked_exec env acts), get_room_deadlocked; done.
Qed.
End Deadlock.

(** A scenario in which the theorem applies. *)

Lemma get_room_on_demand_never_returns_witness :
  pending
    (main (exec sample_api
             (Run Main :: Run Main ::
                [Run (Bg 0); Run Main; Run Main; Run (Bg 0); Run Main; Run Main;
                 Run (Bg 0); Run (Bg 0); Run Main; Timeout Main; Run (Bg 0)])
             (Config (VoiceAI.RoomPool.get_room sample_api) [code sample_api TaskAddRoom]
                (World env_up (set_pool [] (sample_mem [])) false [] ∅)))).
Proof.
  apply (get_room_on_demand_never_returns sample_api env_up).
  - intros h. exists "https://x.daily.co/new". repeat split; reflexivity.
  - constructor; [apply no_release_code|constructor].
Defined.

(** ** [get_room] hands out the head of the buffer *)

(** C7: called on a non-empty buffer with the lock free, [get_room] of
    either pool returns the first entry of the buffer and leaves the rest
    of the buffer, in order, as the new buffer; nothing else changes and
    nothing is sent out; one replenishing [add_room] task is created. *)
Theorem get_room_pops_head (api : string) (env : oracle) (m : mem)
    (room : entry) (rest : list entry) (lg : list event) (ex : gset Z) :
  let w := World env (set_pool (room :: rest) m) false lg ex in
  let w' := World env (set_pool rest m) false lg ex in
  eval (VoiceAI.RoomPool.get_room api) w = (Returned room, w', [TaskAddRoom]) ∧
  eval InstantVoice.RoomPool.get_room w = (Returned room, w', [TaskAddRoomIV]).
Proof. split; reflexivity. Qed.

(** ** [disconnect] of a session that is not registered *)

(** C9: [disconnect] with a session id that is not in [active_bots]
    returns [success = True], sends nothing out and changes nothing. *)
Theorem disconnect_unknown_session (session_id : string) (w : world) :
  active_bots (w_mem w) !! session_id = None →
  eval (VoiceAI.disconnect session_id) w =
    (Returned (VoiceAI.mkDisconnectResponse true), w, []).
Proof.
  intros H. destruct w as [env m lk lg ex]. cbn in *. by rewrite H.
Qed.

Lemma disconnect_unknown_session_witness :
  eval (VoiceAI.disconnect "no-such-session") (sample_world env_up [room_a]) =
    (Returned (VoiceAI.mkDisconnectResponse true), sample_world env_up [room_a], []).
Proof. apply (disconnect_unknown_session "no-such-session"). reflexivity. Defined.

(** ** Counting what was observed *)

Lemma creates_app (l1 l2 : list event) : creates (l1 ++ l2) = creates l1 + creates l2.
Proof. unfold creates. by rewrite List.filter_app, length_app. Qed.

Lemma destroys_app (url : string) (l1 l2 : list event) :
  destroys url (l1 ++ l2) = destroys url l1 + destroys url l2.
Proof. unfold destroys. by rewrite List.filter_app, length_app. Qed.

Ltac count_log :=
  unfold creates, destroys; cbn; rewrite ?List.filter_app, ?length_app; cbn; try lia.

(** ** The pool of [room_pool.py] *)

Section VoiceAIPool.
Variable api : string.

Lemma eval_create_room (w : world) :
  eval (VoiceAI.RoomPool._create_room api) w =
    (Returned (VoiceAI.RoomPool.result_field (w_env w (w_log w) (HttpPost (api +:+ "/rooms") None))),
     add_log (EvCall (HttpPost (api +:+ "/rooms") None)) w, []).
Proof. reflexivity. Qed.

Lemma eval_create_token (url : string) (w : world) :
  eval (VoiceAI.RoomPool._create_token api url) w =
    if Py.truthy (VoiceAI.RoomPool.room_name_of url) then
      let c := HttpPost (api +:+ "/meeting-tokens") (Some (VoiceAI.RoomPool.room_name_of url)) in
      (Returned (VoiceAI.RoomPool.result_field (w_env w (w_log w) c)), add_log (EvCall c) w, [])
    else (Returned None, w, []).
Proof. unfold VoiceAI.RoomPool._create_token. by destruct (Py.truthy _). Qed.

Lemma eval_delete_room (url : string) (w : world) :
  eval (VoiceAI.RoomPool._delete_room api url) w =
    let w1 := add_log (EvDestroy url) w in
    if Py.truthy (VoiceAI.RoomPool.room_name_of url) then
      let c := HttpDelete (api +:+ "/rooms/" +:+ VoiceAI.RoomPool.room_name_of url) in
      (Returned (VoiceAI.RoomPool.result_ok (w_env w (w_log w1) c)), add_log (EvCall c) w1, [])
    else (Returned false, w1, []).
Proof. unfold VoiceAI.RoomPool._delete_room. cbn. by destruct (Py.truthy _). Qed.

(** What [add_room] does while another coroutine (or its own caller) holds
    the lock. *)
Lemma add_room_while_locked (w : world) :
  w_locked w = true →
  ∃ o w', eval (VoiceAI.RoomPool.add_room api) w = (o, w', []) ∧
    w_mem w' = w_mem w ∧ w_locked w' = true ∧ w_env w' = w_env w ∧
    w_exited w' = w_exited w ∧
    creates (w_log w') = creates (w_log w) + 1 ∧
    (o = Returned tt ∨ ∃ p, o = Blocked p).
Proof.
  intros Hl. unfold VoiceAI.RoomPool.add_room.
  rewrite eval_try_except, eval_mbind, eval_create_room. cbn [then_eval].
  destruct (Py.truthy_opt _) eqn:Hu; cbn [negb].
  2:{ cbn. eexists _, _. split; [done|]. repeat split; auto; count_log. }
  rewrite eval_mbind, eval_create_token.
  destruct (Py.truthy (VoiceAI.RoomPool.room_name_of _)) eqn:Hn.
  2:{ cbn [then_eval]. rewrite eval_mbind, eval_create_token, Hn. cbn [then_eval].
      cbn [Py.truthy_opt negb orb]. rewrite eval_mbind, eval_delete_room, Hn.
      cbn. eexists _, _. split; [done|]. repeat split; eauto; count_log. }
  cbn [then_eval]. rewrite eval_mbind, eval_create_token, Hn. cbn [then_eval].
  destruct (_ || _) eqn:Ht.
  - rewrite eval_mbind, eval_delete_room, Hn.
    cbn. eexists _, _. split; [done|]. repeat split; eauto; count_log.
  - cbn. rewrite Hl. cbn. eexists _, _. split; [done|]. repeat split; eauto; count_log.
Qed.

Lemma get_room_empty (env : oracle) (m : mem) (lg : list event) (ex : gset Z) :
  ∃ o w',
    eval (VoiceAI.RoomPool.get_room api) (World env (set_pool [] m) false lg ex) = (o, w', []) ∧
    creates (w_log w') = creates lg + 1 ∧ pool (w_mem w') = [] ∧
    ((o = Raised (HTTPException 503 "No available rooms") ∧ w_locked w' = false) ∨
     (∃ p, o = Blocked p ∧ w_locked w' = true)).
Proof.
  unfold VoiceAI.RoomPool.get_room, with_lock.
  rewrite eval_mbind. cbn -[VoiceAI.RoomPool.add_room].
  rewrite eval_try_finally, !eval_mbind.
  match goal with |- context [eval (VoiceAI.RoomPool.add_room api) ?w1] =>
    destruct (add_room_while_locked w1 eq_refl)
      as (o & w' & -> & Hm & Hl & He & Hx & Hc & Ho)
  end.
  destruct w' as [env' m' lk' lg' ex']. cbn in Hm, Hl, He, Hx, Hc. subst.
  destruct Ho as [->|[p ->]]; cbn.
  - eexists _, _. split; [done|]. cbn. split; [done|]. split; [done|]. left. done.
  - eexists _, _. split; [done|]. cbn. split; [done|]. split; [done|]. right. eauto.
Qed.

(** [get_room] raises nothing but the 503 of an exhausted pool. *)
Lemma get_room_raises_503_only (w w' : world) (e : exn) (ts : list task) :
  eval (VoiceAI.RoomPool.get_room api) w = (Raised e, w', ts) →
  e = HTTPException 503 "No available rooms".
Proof.
  destruct w as [env [pl rps ab bp rm] [|] lg ex]; [by cbn|].
  destruct pl as [|room rest]; [|by cbn].
  destruct (get_room_empty env (Mem [] rps ab bp rm) lg ex)
    as (o & w1 & He & _ & _ & Ho).
  change (set_pool [] (Mem [] rps ab bp rm)) with (Mem [] rps ab bp rm) in He.
  rewrite He. intros H. simplify_eq.
  by destruct Ho as [[[= ->] _]|(p & [=] & _)].
Qed.

(** C2 (amended): on an empty buffer with the lock free, [get_room] of
    [room_pool.py] runs one on-demand [add_room] while it holds the lock.
    That [add_room] sends exactly one room creation request, never raises
    and leaves the buffer empty. When it returns, [get_room] raises
    [HTTPException(503, "No available rooms")] and releases the lock; this
    is what happens whenever the creation request gives no room. When it
    does not return (it waits for the lock), [get_room] stays suspended
    inside it. No entry is handed out. [get_room] of instant-voice raises
    the same exception at once, with no request and no change. *)
Theorem get_room_on_empty_buffer (env : oracle) (m : mem) (lg : list event)
    (ex : gset Z) :
  let w := World env (set_pool [] m) false lg ex in
  let not_available := HTTPException 503 "No available rooms" in
  (∃ o1 w1,
     eval (VoiceAI.RoomPool.add_room api)
          (World env (set_pool [] m) true lg ex) = (o1, w1, []) ∧
     creates (w_log w1) = creates lg + 1 ∧ pool (w_mem w1) = [] ∧
     match o1 with
     | Returned _ =>
         eval (VoiceAI.RoomPool.get_room api) w =
           (Raised not_available,
            World (w_env w1) (w_mem w1) false (w_log w1) (w_exited w1), [])
     | Blocked _ =>
         w_locked w1 = true ∧
         ∃ p, eval (VoiceAI.RoomPool.get_room api) w = (Blocked p, w1, [])
     | Raised _ => False
     end) ∧
  (Py.truthy_opt
     (VoiceAI.RoomPool.result_field (env lg (HttpPost (api +:+ "/rooms") None))) = false →
   eval (VoiceAI.RoomPool.get_room api) w =
     (Raised not_available,
      World env (set_pool [] m) false
        (lg ++ [EvCall (HttpPost (api +:+ "/rooms") None)]) ex, [])) ∧
  eval InstantVoice.RoomPool.get_room w = (Raised not_available, w, []).
Proof.
  intros w not_available. subst w not_available.
  split; [|split; [|reflexivity]].
  - destruct (add_room_while_locked (World env (set_pool [] m) true lg ex) eq_refl)
      as (o & w' & He & Hm & Hl & Hv & Hx & Hc & Ho).
    exists o, w'. split; [done|]. split; [done|].
    split; [by rewrite Hm|].
    unfold VoiceAI.RoomPool.get_room, with_lock.
    rewrite eval_mbind. cbn -[VoiceAI.RoomPool.add_room].
    rewrite eval_try_finally, !eval_mbind.
    match goal with |- context [eval (VoiceAI.RoomPool.add_room api) ?w0] =>
      change (eval (VoiceAI.RoomPool.add_room api) w0)
        with (eval (VoiceAI.RoomPool.add_room api)
                (World env (set_pool [] m) true lg ex))
    end.
    rewrite He.
    destruct w' as [env' m' lk' lg' ex']. cbn in Hm, Hl, Hv, Hx, Hc. subst.
    destruct Ho as [->|[p ->]]; cbn.
    + done.
    + split; [done|]. eauto.
  - intros Hc. unfold VoiceAI.RoomPool.get_room, VoiceAI.RoomPool.add_room. cbn.
    rewrite Hc. reflexivity.
Qed.

(** What [add_room] does when the room is created and a token is not
    minted: it calls [_delete_room] for the room and returns, and the state
    of the process is as before. *)
Lemma add_room_mint_failure (w w1 w2 w3 : world) (url : string)
    (ut bt : option string) :
  eval (VoiceAI.RoomPool._create_room api) w = (Returned (Some url), w1, []) →
  Py.truthy url = true →
  eval (VoiceAI.RoomPool._create_token api url) w1 = (Returned ut, w2, []) →
  eval (VoiceAI.RoomPool._create_token api url) w2 = (Returned bt, w3, []) →
  Py.truthy_opt ut && Py.truthy_opt bt = false →
  ∃ w' rest,
    eval (VoiceAI.RoomPool.add_room api) w = (Returned tt, w', []) ∧
    w_mem w' = w_mem w ∧ w_locked w' = w_locked w ∧
    w_log w' = w_log w3 ++ EvDestroy url :: rest ∧
    destroys url (w_log w') = destroys url (w_log w) + 1.
Proof.
  intros H1 Hu H2 H3 Ht. unfold VoiceAI.RoomPool.add_room.
  rewrite eval_try_except, eval_mbind, H1. cbn [then_eval Py.truthy_opt].
  rewrite Hu. cbn [negb from_option id]. rewrite eval_mbind, H2. cbn [then_eval].
  rewrite eval_mbind, H3. cbn [then_eval].
  replace (negb (Py.truthy_opt ut) || negb (Py.truthy_opt bt)) with true
    by (by destruct (Py.truthy_opt ut), (Py.truthy_opt bt)).
  rewrite eval_mbind, eval_delete_room.
  rewrite eval_create_room in H1. rewrite !eval_create_token in H2, H3.
  destruct (Py.truthy (VoiceAI.RoomPool.room_name_of url)); cbn in H2, H3; simplify_eq; cbn.
  - eexists _, _. split; [done|]. cbn. split; [done|]. split; [done|].
    split; [by rewrite <- app_assoc|]. count_log.
    unfold is_destroy. rewrite bool_decide_true by done. cbn. lia.
  - eexists _, []. split; [done|]. cbn. split; [done|]. split; [done|].
    split; [done|]. count_log.
    unfold is_destroy. rewrite bool_decide_true by done. cbn. lia.
Qed.
(** When the three requests of the on-demand [add_room] succeed, the
    [get_room] call run on its own stays suspended at the lock it holds:
    the new entry is never appended. *)
Lemma get_room_blocks_when_provisioned (env : oracle) (m : mem)
    (lg : list event) (ex : gset Z) (url ut bt : string) (w1 w2 w3 : world) :
  eval (VoiceAI.RoomPool._create_room api)
       (World env (set_pool [] m) true lg ex) = (Returned (Some url), w1, []) →
  Py.truthy url = true →
  eval (VoiceAI.RoomPool._create_token api url) w1 = (Returned (Some ut), w2, []) →
  Py.truthy ut = true →
  eval (VoiceAI.RoomPool._create_token api url) w2 = (Returned (Some bt), w3, []) →
  Py.truthy bt = true →
  ∃ p,
    eval (VoiceAI.RoomPool.get_room api) (World env (set_pool [] m) false lg ex) =
      (Blocked p, w3, []) ∧
    w_locked w3 = true ∧ pool (w_mem w3) = [].
Proof.
  intros H1 Hu H2 Hut H3 Hbt.
  unfold VoiceAI.RoomPool.get_room, with_lock.
  rewrite eval_mbind. cbn -[VoiceAI.RoomPool.add_room].
  rewrite eval_try_finally, !eval_mbind.
  match goal with |- context [eval (VoiceAI.RoomPool.add_room api) ?w] =>
    change w with (World env (set_pool [] m) true lg ex) end.
  unfold VoiceAI.RoomPool.add_room.
  rewrite eval_try_except, eval_mbind, H1. cbn [then_eval Py.truthy_opt].
  rewrite Hu. cbn [negb from_option id]. rewrite eval_mbind, H2. cbn [then_eval].
  rewrite eval_mbind, H3. cbn [then_eval Py.truthy_opt]. rewrite Hut, Hbt.
  cbn [negb orb].
  rewrite eval_create_room in H1. rewrite !eval_create_token in H2, H3.
  destruct (Py.truthy (VoiceAI.RoomPool.room_name_of url)); cbn in H2, H3;
    simplify_eq.
  cbn. eexists. split; [reflexivity|]. done.
Qed.
End VoiceAIPool.

Lemma get_room_on_empty_buffer_witness :
  eval (VoiceAI.RoomPool.get_room sample_api) (sample_world env_no_rooms []) =
    (Raised (HTTPException 503 "No available rooms"),
     World env_no_rooms (sample_mem []) false
       ([] ++ [EvCall (HttpPost (sample_api +:+ "/rooms") None)]) ∅, []).
Proof.
  destruct (get_room_on_empty_buffer sample_api env_no_rooms (sample_mem []) [] ∅)
    as (_ & H & _).
  apply H. reflexivity.
Defined.


Lemma destroy_trace_app (l1 l2 : list event) :
  destroy_trace (l1 ++ l2) = destroy_trace l1 ++ destroy_trace l2.
Proof. apply omap_app. Qed.

(** ** [cleanup] of the pool *)

Section Cleanup.
Variable api : string.

Lemma eval_gather_delete_rooms (l : list entry) (w : world) :
  ∃ w',
    eval (gather ((λ room, VoiceAI.RoomPool.delete_room api (room_url room)) <$> l)) w =
      (Returned tt, w', []) ∧
    w_mem w' = w_mem w ∧
    destroy_trace (w_log w') = destroy_trace (w_log w) ++ (room_url <$> l).
Proof.
  revert w. induction l as [|room l IH]; intros w.
  - exists w. by rewrite app_nil_r.
  - rewrite fmap_cons. cbn [gather]. rewrite eval_bind.
    unfold VoiceAI.RoomPool.delete_room at 1. rewrite eval_mbind, eval_delete_room.
    destruct (Py.truthy _); cbn [then_eval eval app].
    + destruct (IH (add_log (EvCall (HttpDelete
                  (api +:+ "/rooms/" +:+ VoiceAI.RoomPool.room_name_of (room_url room))))
                  (add_log (EvDestroy (room_url room)) w)))
        as (w' & -> & Hm & Ht).
      exists w'. split; [done|]. split; [done|]. rewrite Ht. cbn.
      rewrite !destroy_trace_app. cbn. by rewrite app_nil_r, <- app_assoc.
    + destruct (IH (add_log (EvDestroy (room_url room)) w)) as (w' & -> & Hm & Ht).
      exists w'. split; [done|]. split; [done|]. rewrite Ht. cbn.
      rewrite !destroy_trace_app. cbn. by rewrite <- app_assoc.
Qed.

Lemma gather_guard (ps : list (prog unit)) :
  (if negb (Py.is_empty ps) then gather ps else Ret tt) = gather ps.
Proof. by destruct ps. Qed.

Lemma cleanup_destroys_and_empties (w : world) :
  ∃ w',
    eval (VoiceAI.RoomPool.cleanup api) w = (Returned tt, w', []) ∧
    pool (w_mem w') = [] ∧
    destroy_trace (w_log w') =
      destroy_trace (w_log w) ++ (room_url <$> pool (w_mem w)).
Proof.
  unfold VoiceAI.RoomPool.cleanup. rewrite eval_mbind. cbn [eval read then_eval id].
  rewrite gather_guard, eval_mbind.
  destruct (eval_gather_delete_rooms (pool (w_mem w)) (set_mem (w_mem w) w))
    as (w' & -> & Hm & Ht).
  cbn. eexists. split; [done|]. cbn. split; [done|]. exact Ht.
Qed.

Lemma iv_cleanup_keeps_buffer (w : world) :
  ∃ o w',
    eval InstantVoice.RoomPool.cleanup w = (o, w', []) ∧
    w_mem w' = w_mem w ∧
    (∃ k, destroy_trace (w_log w') =
            destroy_trace (w_log w) ++ take k (room_url <$> pool (w_mem w))) ∧
    (o = Returned tt →
     destroy_trace (w_log w') =
       destroy_trace (w_log w) ++ (room_url <$> pool (w_mem w))).
Proof.
  unfold InstantVoice.RoomPool.cleanup. rewrite eval_mbind. cbn [eval read then_eval id].
  assert (∀ l w0, ∃ o w',
    eval (for_each l (λ rooms, InstantVoice.RoomPool.delete_room (room_url rooms))) w0 =
      (o, w', []) ∧ w_mem w' = w_mem w0 ∧
    (∃ k, destroy_trace (w_log w') =
            destroy_trace (w_log w0) ++ take k (room_url <$> l)) ∧
    (o = Returned tt →
     destroy_trace (w_log w') = destroy_trace (w_log w0) ++ (room_url <$> l))) as H.
  { induction l as [|room l IH]; intros w0; cbn [for_each].
    - exists (Returned tt), w0. cbn. split; [done|]. split; [done|].
      split; [exists 0|]; by rewrite app_nil_r.
    - rewrite eval_bind. cbn.
      destruct (w_env w0 _ (DailyDeleteRoomByUrl (room_url room))) as [e|[]]; cbn.
      + eexists _, _. split; [done|]. cbn. split; [done|].
        split; [|done]. exists 1. rewrite !destroy_trace_app. cbn.
        by rewrite app_nil_r, take_0.
      + match goal with |- context [eval (for_each _ _) ?w1] =>
          destruct (IH w1) as (o & w' & -> & Hm & [k Hk] & Ht) end.
        exists o, w'. split; [done|]. split; [done|]. split.
        * exists (S k). rewrite Hk. cbn. rewrite !destroy_trace_app. cbn.
          by rewrite app_nil_r, <- app_assoc.
        * intros Ho. rewrite (Ht Ho). cbn. rewrite !destroy_trace_app. cbn.
          by rewrite app_nil_r, <- app_assoc. }
  destruct (H (pool (w_mem w)) (set_mem (w_mem w) w)) as (o & w' & He & Hm & Hk & Ht).
  exists o, w'. rewrite He. destruct o; cbn; done.
Qed.

End Cleanup.




(** ** [add_room] of instant-voice *)

(** [add_room] of instant-voice never enters the destroy operation and
    never raises. *)
Lemma iv_add_room_never_destroys (w : world) :
  ∃ o w',
    eval InstantVoice.RoomPool.add_room w = (o, w', []) ∧
    (∀ e, o ≠ Raised e) ∧
    destroy_trace (w_log w') = destroy_trace (w_log w).
Proof.
  unfold InstantVoice.RoomPool.add_room. rewrite eval_try_except. cbn.
  destruct (w_env w (w_log w) DailyCreateRoom) as [e|url]; cbn.
  { eexists _, _. split; [done|]. split; [done|]. cbn. by rewrite destroy_trace_app, app_nil_r. }
  destruct (Py.truthy url); cbn.
  2:{ eexists _, _. split; [done|]. split; [done|]. cbn. by rewrite destroy_trace_app, app_nil_r. }
  destruct (w_env w _ (DailyGetToken url)) as [e|ut]; cbn.
  { eexists _, _. split; [done|]. split; [done|]. cbn. by rewrite !destroy_trace_app, !app_nil_r. }
  destruct (Py.truthy ut); cbn.
  2:{ eexists _, _. split; [done|]. split; [done|]. cbn. by rewrite !destroy_trace_app, !app_nil_r. }
  destruct (w_env w _ (DailyGetToken url)) as [e|bt]; cbn.
  { eexists _, _. split; [done|]. split; [done|]. cbn. by rewrite !destroy_trace_app, !app_nil_r. }
  destruct (Py.truthy bt); cbn.
  2:{ eexists _, _. split; [done|]. split; [done|]. cbn. by rewrite !destroy_trace_app, !app_nil_r. }
  destruct (w_locked w); cbn.
  all: eexists _, _; (split; [done|]); (split; [done|]); cbn;
    by rewrite !destroy_trace_app, !app_nil_r.
Qed.

(** C4 (the code at the failing input): the provisioning service creates
    the room and refuses the token; [add_room] of instant-voice returns
    with the buffer unchanged, and no destroy operation was entered for the
    room it created. *)
Theorem iv_add_room_leaks_created_room :
  ∃ w',
    eval InstantVoice.RoomPool.add_room (sample_world env_no_token []) =
      (Returned tt, w', []) ∧
    pool (w_mem w') = [] ∧
    w_log w' = [EvCall DailyCreateRoom;
                EvCall (DailyGetToken "https://x.daily.co/new")] ∧
    destroys "https://x.daily.co/new" (w_log w') = 0.
Proof. eexists. split; [reflexivity|]. repeat split. Qed.

(** The same world, [add_room] of [room_pool.py]: the room is destroyed. *)
Lemma add_room_destroys_created_room :
  ∃ w',
    eval (VoiceAI.RoomPool.add_room sample_api) (sample_world env_no_token []) =
      (Returned tt, w', []) ∧
    pool (w_mem w') = [] ∧
    destroys "https://x.daily.co/new" (w_log w') = 1.
Proof. eexists. split; [reflexivity|]. split; reflexivity. Qed.

(** ** Connecting *)

Section Connect.
Variable api : string.
Variable TEST_ROOM_URL : option string.
Variable str : exn → string.

(** [start_bot] enters no destroy operation; when it raises, the state of
    the process is as before and no task was created. *)
Lemma start_bot_raises (url token : string) (w w' : world) (e : exn)
    (ts : list task) :
  eval (InstantVoice.BotManager.start_bot str url token) w = (Raised e, w', ts) →
  is_HTTPException e = true ∧ w_mem w' = w_mem w ∧ ts = [] ∧
  destroy_trace (w_log w') = destroy_trace (w_log w).
Proof.
  unfold InstantVoice.BotManager.start_bot. rewrite eval_try_except. cbn.
  destruct (w_env w (w_log w) _) as [e0|[q [p|]]]; cbn; intros H; simplify_eq.
  all: repeat split; cbn; by rewrite destroy_trace_app, app_nil_r.
Qed.

Lemma run_bot_initialize_fails (session_id : string) (w : world) (e : exn) :
  w_env w (w_log w) (BotInitialize session_id) = inl e →
  ∃ w',
    eval (VoiceAI.run_bot session_id) w = (Returned tt, w', []) ∧
    active_bots (w_mem w') !! session_id = None ∧
    pool (w_mem w') = pool (w_mem w) ∧
    w_log w' = w_log w ++ [EvCall (BotInitialize session_id)].
Proof.
  intros H. unfold VoiceAI.run_bot. cbn. rewrite H. cbn.
  eexists. split; [done|]. cbn.
  case_bool_decide as Hs; cbn; (split; [|done]).
  - apply lookup_delete_eq.
  - by apply eq_None_not_Some.
Qed.

(** C5 (amended): when [get_room] succeeds and [start_bot] then fails,
    [bot_connect] of instant-voice returns the body [{"error": str(e)}];
    the room has left the buffer and no destroy operation was entered for
    it. In voice-ai the worker is started by the background [run_bot]; when
    its [initialize] raises, the session is removed from [active_bots] and
    nothing but the call to [initialize] was sent out. *)
Theorem failed_start_destroys_nothing (env : oracle) (m : mem) (room : entry)
    (rest : list entry) (lg : list event) (ex : gset Z) (e e' : exn)
    (w1 w2 : world) (ts : list task) (session_id : string) :
  eval (InstantVoice.BotManager.start_bot str (room_url room) (bot_token room))
       (World env (set_pool rest m) false lg ex) = (Raised e, w1, ts) →
  w_env w2 (w_log w2) (BotInitialize session_id) = inl e' →
  (eval (InstantVoice.bot_connect str)
        (World env (set_pool (room :: rest) m) false lg ex) =
     (Returned [("error", str e)], w1, [TaskAddRoomIV]) ∧
   pool (w_mem w1) = rest ∧
   destroy_trace (w_log w1) = destroy_trace lg) ∧
  (∃ w',
     eval (VoiceAI.run_bot session_id) w2 = (Returned tt, w', []) ∧
     active_bots (w_mem w') !! session_id = None ∧
     destroy_trace (w_log w') = destroy_trace (w_log w2)).
Proof.
  intros H1 H2. split.
  - destruct (start_bot_raises _ _ _ _ _ _ H1) as (He & Hm & -> & Ht).
    unfold InstantVoice.bot_connect. rewrite eval_try_except, eval_mbind.
    assert (eval InstantVoice.RoomPool.get_room
              (World env (set_pool (room :: rest) m) false lg ex) =
            (Returned room, World env (set_pool rest m) false lg ex,
             [TaskAddRoomIV])) as Hg by reflexivity.
    rewrite Hg. cbn [then_eval].
    rewrite eval_mbind, H1. cbn. rewrite He. cbn.
    split; [done|]. by rewrite Hm.
  - destruct (run_bot_initialize_fails session_id w2 e' H2) as (w' & Hr & Ha & _ & Hl).
    exists w'. split; [done|]. split; [done|].
    by rewrite Hl, destroy_trace_app, app_nil_r.
Qed.

End Connect.

Lemma failed_start_destroys_nothing_witness :
  let e := HTTPException 500 "Failed to start subprocess: cannot fork" in
  let w1 :=
    World env_down (sample_mem []) false
      [EvCall (CreateSubprocessShell
                 "python3 -m single_bot -u https://x.daily.co/a -t bot-a")] ∅ in
  (eval (InstantVoice.bot_connect sample_str)
        (World env_down (set_pool [room_a] (sample_mem [])) false [] ∅) =
     (Returned [("error", sample_str e)], w1, [TaskAddRoomIV]) ∧
   pool (w_mem w1) = [] ∧
   destroy_trace (w_log w1) = destroy_trace []) ∧
  (∃ w',
     eval (VoiceAI.run_bot "sid-1") (sample_world env_down []) =
       (Returned tt, w', []) ∧
     active_bots (w_mem w') !! "sid-1" = None ∧
     destroy_trace (w_log w') = destroy_trace (w_log (sample_world env_down []))).
Proof.
  apply (failed_start_destroys_nothing sample_str env_down
           (sample_mem []) room_a [] [] ∅ _ (LibraryError "no transport")
           _ (sample_world env_down []) [] "sid-1"); reflexivity.
Defined.

(** C5 (the claim fails): the operating system cannot start a process;
    [bot_connect] has taken [room_a] out of the buffer and returns an
    error, and the destroy operation was not entered for [room_a]. *)
Lemma bot_connect_keeps_room_after_failed_start :
  ∃ w',
    eval (InstantVoice.bot_connect sample_str) (sample_world env_down [room_a]) =
      (Returned [("error", "500: Failed to start subprocess: cannot fork")],
       w', [TaskAddRoomIV]) ∧
    pool (w_mem w') = [] ∧
    destroys (room_url room_a) (w_log w') = 0.
Proof. eexists. split; [reflexivity|]. split; reflexivity. Qed.

(** C2 (the claim fails): the provisioning service is up and the buffer of
    instant-voice is empty; [get_room] raises at once and no room creation
    was requested. *)
Lemma iv_get_room_attempts_no_creation :
  ∃ w',
    eval InstantVoice.RoomPool.get_room (sample_world env_up []) =
      (Raised (HTTPException 503 "No available rooms"), w', []) ∧
    creates (w_log w') = 0.
Proof. eexists. split; reflexivity. Qed.

(** ** What a connect request is answered with *)

Section Responses.
Variable api : string.
Variable TEST_ROOM_URL : option string.
Variable str : exn → string.


End Responses.





(** ** Rooms of sessions are destroyed at most once *)

Lemma disciplined_mono {A} (p : prog A) (h h' : gmultiset string) :
  h ⊆ h' → disciplined p h → disciplined p h'.
Proof.
  revert h h'. induction p as [a|e|g k IH|k IH|k IH|c k IH|e k IH|q k IH|q t k IH|t k IH];
    intros h h' Hh; cbn; try done; eauto.
  - intros Hp m. destruct (Hp m) as (hd & Hsub & Hk).
    exists (hd ⊎ (h' ∖ h)). split; [multiset_solver|].
    eapply IH; [|done]. multiset_solver.
  - destruct e as [c|u]; [eauto|].
    intros [Hu Hk]. split; [multiset_solver|].
    eapply IH; [|done]. multiset_solver.
Qed.

Lemma disciplined_bind {A B} (p : prog A) (f : A → prog B) (h : gmultiset string) :
  disciplined p h → (∀ a, disciplined (f a) ∅) → disciplined (bind p f) h.
Proof.
  intros Hp Hf. revert h Hp.
  induction p as [a|e|g k IH|k IH|k IH|c k IH|e k IH|q k IH|q t k IH|t k IH];
    intros h Hp; cbn in *; try done; eauto.
  - eapply disciplined_mono; [|apply Hf]. multiset_solver.
  - intros m. destruct (Hp m) as (hd & Hsub & Hk). eauto.
  - destruct e as [c|u]; [eauto|]. destruct Hp. eauto.
Qed.

Lemma disciplined_try_except {A} (p : prog A) (handler : exn → prog A)
    (h : gmultiset string) :
  disciplined p h → (∀ e, disciplined (handler e) ∅) →
  disciplined (try_except p handler) h.
Proof.
  intros Hp Hf. revert h Hp.
  induction p as [a|e|g k IH|k IH|k IH|c k IH|e k IH|q k IH|q t k IH|t k IH];
    intros h Hp; cbn in *; try done; eauto.
  - eapply disciplined_mono; [|apply Hf]. multiset_solver.
  - intros m. destruct (Hp m) as (hd & Hsub & Hk). eauto.
  - destruct e as [c|u]; [eauto|]. destruct Hp. eauto.
Qed.

Lemma tokens_set_bot_procs (b : gmap Z process) (m : mem) :
  tokens (set_bot_procs b m) = tokens m.
Proof. reflexivity. Qed.

Lemma tokens_pop (p : Z) (m : mem) :
  tokens (set_room_mappings (delete p (room_mappings m)) m) ⊎
    from_option (λ u, {[+ u +]}) ∅ (room_mappings m !! p) = tokens m.
Proof.
  unfold tokens. cbn. destruct (room_mappings m !! p) as [u|] eqn:Hp; cbn.
  - assert ((map_to_list (room_mappings m)).*2 ≡ₚ
            u :: (map_to_list (delete p (room_mappings m))).*2) as ->
      by (by rewrite <- (map_to_list_delete _ _ _ Hp)).
    rewrite list_to_set_disj_cons. multiset_solver.
  - rewrite delete_id by done. multiset_solver.
Qed.

Lemma disciplined_monitor (p : Z) :
  disciplined (InstantVoice.BotManager._monitor_process p) ∅.
Proof.
  cbn. intros m. exists ∅. split; [done|].
  destruct (bot_procs m !! p) as [proc|]; cbn; [|done].
  intros m1. exists (from_option (λ u, {[+ u +]}) ∅ (room_mappings m1 !! p)).
  split; [rewrite tokens_pop; multiset_solver|].
  assert (∀ h, disciplined (InstantVoice.BotManager.del_bot_proc p) h) as Hd.
  { intros h m2. exists h. split; [done|]. by destruct (bot_procs m2 !! p). }
  destruct (room_mappings m1 !! p) as [u|]; cbn; [|apply Hd].
  destruct (Py.truthy u); cbn; [|apply Hd].
  split; [multiset_solver|]. intros [e|[]]; cbn; [done|apply Hd].
Qed.

Lemma disciplined_cleanup_one (p : Z) (proc : process) :
  disciplined (InstantVoice.BotManager.cleanup_one p proc) ∅.
Proof.
  cbn. intros [e|[]]; cbn; [by destruct e|].
  intros [e|[]]; cbn; [by destruct e|].
  intros m. exists (from_option (λ u, {[+ u +]}) ∅ (room_mappings m !! p)).
  split; [rewrite tokens_pop; multiset_solver|].
  destruct (room_mappings m !! p) as [u|]; cbn; [|done].
  destruct (Py.truthy u); cbn; [|done].
  split; [multiset_solver|]. intros [e|[]]; cbn; [by destruct e|done].
Qed.

Lemma disciplined_bm_cleanup : disciplined InstantVoice.BotManager.cleanup ∅.
Proof.
  unfold InstantVoice.BotManager.cleanup. cbn [mbind prog_bind bind read].
  intros m. exists ∅. split; [done|]. cbn [bind].
  apply disciplined_bind.
  - generalize (map_to_list (bot_procs m)). intros l.
    induction l as [|[p proc] l IH]; [exact I|].
    cbn [for_each]. apply disciplined_bind; [|done].
    apply disciplined_cleanup_one.
  - intros _ m'. exists ∅. split; [|done]. unfold tokens. cbn.
    rewrite map_to_list_empty. multiset_solver.
Qed.

Lemma destroyed_app (l1 l2 : list event) :
  destroyed (l1 ++ l2) = destroyed l1 ⊎ destroyed l2.
Proof. unfold destroyed. by rewrite destroy_trace_app, list_to_set_disj_app. Qed.

Lemma destroyed_call (c : call) : destroyed [EvCall c] = ∅.
Proof. reflexivity. Qed.

Lemma destroyed_destroy (u : string) : destroyed [EvDestroy u] = {[+ u +]}.
Proof.
  unfold destroyed. change (destroy_trace [EvDestroy u]) with [u].
  rewrite list_to_set_disj_cons, list_to_set_disj_nil. apply (right_id _ _).
Qed.

Lemma destroys_multiplicity (url : string) (log : list event) :
  destroys url log = multiplicity url (destroyed log).
Proof.
  unfold destroys, destroyed. induction log as [|[c|u] log IH].
  - done.
  - exact IH.
  - change (destroy_trace (EvDestroy u :: log)) with (u :: destroy_trace log).
    rewrite list_to_set_disj_cons, multiplicity_disj_union.
    cbn [List.filter is_destroy]. case_bool_decide as Hu; cbn [length].
    + subst. rewrite multiplicity_singleton, decide_True by done. lia.
    + rewrite multiplicity_singleton_ne by done. lia.
Qed.

Lemma step_disciplined {A} (p p' : prog A) (h : gmultiset string)
    (w w' : world) (b : bool) (ts : list task) :
  disciplined p h → step b p w = Some (p', w', ts) →
  ∃ h', disciplined p' h' ∧ ts = [] ∧
    destroyed (w_log w') ⊎ tokens (w_mem w') ⊎ h' ⊆
      destroyed (w_log w) ⊎ tokens (w_mem w) ⊎ h.
Proof.
  intros Hp Hs. destruct p as [a|e|g k|k|k|c k|e k|q k|q t k|t k]; cbn in *;
    try done.
  - simplify_eq. destruct (Hp (w_mem w)) as (h' & Hsub & Hk).
    exists h'. cbn. split; [done|]. split; [done|]. multiset_solver.
  - destruct (w_locked w); simplify_eq. exists h. done.
  - simplify_eq. exists h. done.
  - simplify_eq. exists h. cbn. rewrite destroyed_app, destroyed_call.
    split; [done|]. split; [done|]. multiset_solver.
  - simplify_eq. destruct e as [c|u]; cbn.
    + exists h. rewrite destroyed_app, destroyed_call.
      split; [done|]. split; [done|]. multiset_solver.
    + destruct Hp as [Hu Hk]. exists (h ∖ {[+ u +]}).
      rewrite destroyed_app, destroyed_destroy.
      split; [done|]. split; [done|].
      rewrite (gmultiset_disj_union_difference' u h Hu) at 2. multiset_solver.
  - case_bool_decide; simplify_eq. exists h. done.
  - case_bool_decide; [|destruct b]; simplify_eq; exists h; done.
Qed.

Lemma total_cons (h : gmultiset string) (hs : list (gmultiset string)) :
  total (h :: hs) = h ⊎ total hs.
Proof. reflexivity. Qed.

Lemma total_insert (hs : list (gmultiset string)) (i : nat)
    (h : gmultiset string) :
  hs !! i = Some h →
  ∃ rest, total hs = h ⊎ rest ∧ ∀ h', total (<[i := h']> hs) = h' ⊎ rest.
Proof.
  revert i. induction hs as [|x hs IH]; intros [|i] Hi; try done.
  - injection Hi as ->. exists (total hs). split; [done|]. intros h'.
    change (<[0:=h']> (h :: hs)) with (h' :: hs). by rewrite total_cons.
  - destruct (IH i Hi) as (rest & Hr & Hins). exists (x ⊎ rest). split.
    + rewrite total_cons, Hr. multiset_solver.
    + intros h'. change (<[S i:=h']> (x :: hs)) with (x :: <[i:=h']> hs).
      rewrite total_cons, Hins. multiset_solver.
Qed.

Section AtMostOnce.
Variable api : string.
Context {R : Type}.

Lemma accounted_step (T : gmultiset string) (c : config R) (a : action) :
  accounted T c → accounted T (exec_action api c a).
Proof.
  intros (hm & hbs & Hm & Hb & HT).
  assert (∀ b, accounted T (step_task api b Main c)) as Hmain.
  { intros b. unfold step_task.
    destruct (step b (main c) (cw c)) as [[[p' w'] ts]|] eqn:Hs;
      [|by exists hm, hbs].
    destruct (step_disciplined _ _ _ _ _ _ _ Hm Hs) as (h' & Hp' & -> & Hsub).
    exists h', hbs. cbn. rewrite app_nil_r. split; [done|]. split; [done|].
    multiset_solver. }
  assert (∀ b i, accounted T (step_task api b (Bg i) c)) as Hbg.
  { intros b i. unfold step_task.
    destruct (bg c !! i) as [p|] eqn:Hi; [|by exists hm, hbs].
    destruct (step b p (cw c)) as [[[p' w'] ts]|] eqn:Hs; [|by exists hm, hbs].
    destruct (Forall2_lookup_l _ _ _ _ _ Hb Hi) as (h & Hh & Hp).
    destruct (step_disciplined _ _ _ _ _ _ _ Hp Hs) as (h' & Hp' & -> & Hsub).
    destruct (total_insert _ _ _ Hh) as (rest & Hr & Hins).
    exists hm, (<[i := h']> hbs). cbn. rewrite app_nil_r.
    split; [done|]. split; [by apply Forall2_insert|].
    rewrite Hins. rewrite Hr in HT. multiset_solver. }
  destruct a as [t|t|q]; cbn.
  - destruct t; [apply Hmain|apply Hbg].
  - destruct t; [apply Hmain|apply Hbg].
  - by exists hm, hbs.
Qed.

Lemma accounted_exec (T : gmultiset string) (acts : list action) (c : config R) :
  accounted T c → accounted T (exec api acts c).
Proof.
  revert c. induction acts as [|a acts IH]; intros c Hc; [done|].
  change (exec api (a :: acts) c) with (exec api acts (exec_action api c a)).
  by apply IH, accounted_step.
Qed.

End AtMostOnce.

(** The monitors of any processes and the shutdown [cleanup] together,
    under any schedule: a room is destroyed at most once for each session
    it is bound to. *)
Lemma monitors_and_cleanup_destroy_at_most_once (api : string)
    (acts : list action) (w : world) (pids : list Z) (url : string) :
  destroys url
    (w_log (cw (exec api acts
                  (Config InstantVoice.BotManager.cleanup
                     (InstantVoice.BotManager._monitor_process <$> pids) w)))) ≤
  destroys url (w_log w) + multiplicity url (tokens (w_mem w)).
Proof.
  pose (T := destroyed (w_log w) ⊎ tokens (w_mem w)).
  assert (accounted T (Config InstantVoice.BotManager.cleanup
                         (InstantVoice.BotManager._monitor_process <$> pids) w)) as H0.
  { exists ∅, (replicate (length pids) ∅). cbn.
    split; [apply disciplined_bm_cleanup|]. split.
    - induction pids as [|p pids IH]; cbn; constructor; [|done].
      apply disciplined_monitor.
    - assert (total (replicate (length pids) ∅) = ∅) as ->.
      { induction pids as [|p pids IH]; [done|]. cbn.
        rewrite total_cons, IH. multiset_solver. }
      subst T. multiset_solver. }
  destruct (accounted_exec api T acts _ H0) as (hm & hbs & _ & _ & HT).
  rewrite !destroys_multiplicity. rewrite <- multiplicity_disj_union.
  assert (destroyed (w_log (cw (exec api acts
            (Config InstantVoice.BotManager.cleanup
               (InstantVoice.BotManager._monitor_process <$> pids) w)))) ⊆ T) as Hsub
    by multiset_solver.
  exact (Hsub url).
Qed.



(** ** Ending a session *)

(** The monitor of a registered session whose worker has exited: the room
    is taken out of [room_mappings] and destroyed once. *)
Lemma monitor_destroys_once (p : Z) (proc : process) (url : string) (w : world) :
  bot_procs (w_mem w) !! p = Some proc →
  room_mappings (w_mem w) !! p = Some url →
  Py.truthy url = true →
  proc_id proc ∈ w_exited w →
  ∃ o w',
    eval (InstantVoice.BotManager._monitor_process p) w = (o, w', []) ∧
    room_mappings (w_mem w') !! p = None ∧
    w_log w' = w_log w ++ [EvDestroy url; EvCall (DailyDeleteRoomByUrl url)].
Proof.
  intros Hb Hr Hu Hx. destruct w as [env m lk lg ex]. cbn in *.
  rewrite Hb. cbn. rewrite bool_decide_true by done. cbn.
  rewrite Hr. cbn. rewrite Hu. cbn.
  destruct (env _ (DailyDeleteRoomByUrl url)) as [e|[]]; cbn.
  - eexists _, _. split; [done|]. cbn.
    split; [apply lookup_delete_eq|by rewrite <- app_assoc].
  - destruct (bot_procs _ !! p); cbn.
    all: eexists _, _; (split; [done|]); cbn.
    all: split; [apply lookup_delete_eq|by rewrite <- app_assoc].
Qed.

(** [disconnect] of voice-ai enters no destroy operation. *)
Lemma disconnect_destroys_nothing (session_id : string) (w : world) :
  ∃ w' ts,
    eval (VoiceAI.disconnect session_id) w =
      (Returned (VoiceAI.mkDisconnectResponse true), w', ts) ∧
    active_bots (w_mem w') !! session_id = None ∧
    destroy_trace (w_log w') = destroy_trace (w_log w).
Proof.
  destruct w as [env m lk lg ex]. cbn.
  destruct (active_bots m !! session_id) as [b|] eqn:Hb; cbn.
  2:{ eexists _, _. split; [done|]. done. }
  unfold VoiceAI.VoiceBotManager.disconnect. destruct (b_has_task b); cbn.
  - destruct (env lg (TaskCancel (b_session_id b))) as [e|[]]; cbn.
    all: rewrite bool_decide_true by (by rewrite Hb).
    all: eexists _, _; (split; [done|]); cbn.
    all: split; [apply lookup_delete_eq|by rewrite destroy_trace_app, app_nil_r].
  - rewrite bool_decide_true by (by rewrite Hb).
    eexists _, _. split; [done|]. cbn. split; [apply lookup_delete_eq|done].
Qed.




(** ** Shutdown of the workers *)

Section Shutdown.
Variable api : string.

(** C10 (amended): for each worker, [BotManager.cleanup] signals it with
    [terminate] and then waits for its exit with a timeout of 5. When the
    worker exits during the wait, the room mapped to it is taken out of
    [room_mappings] and destroyed. When the wait times out, the iteration
    ends having sent nothing but the [terminate] signal: the worker is not
    killed. *)
Theorem cleanup_signals_and_waits (env : oracle) (m : mem) (lk : bool)
    (lg : list event) (ex : gset Z) (bgs : list (prog unit)) (p : Z)
    (proc : process) (url : string) :
  let c0 := Config (InstantVoice.BotManager.cleanup_one p proc) bgs (World env m lk lg ex) in
  let signal := EvCall (ProcTerminate (proc_id proc)) in
  env lg (ProcTerminate (proc_id proc)) = inr tt →
  proc_id proc ∉ ex →
  room_mappings m !! p = Some url →
  Py.truthy url = true →
  (∃ k, main (exec api [Run Main] c0) = WaitFor (proc_id proc) 5 k) ∧
  exec api [Run Main; Timeout Main] c0 =
    Config (Ret tt) bgs (World env m lk (lg ++ [signal]) ex) ∧
  (let c' := exec api [Run Main; ProcExit (proc_id proc); Run Main; Run Main;
                       Run Main; Run Main] c0 in
   main c' = Ret tt ∧
   room_mappings (w_mem (cw c')) !! p = None ∧
   w_log (cw c') =
     lg ++ [signal; EvDestroy url; EvCall (DailyDeleteRoomByUrl url)]).
Proof.
  intros c0 signal Ht Hx Hr Hu. subst c0 signal. unfold exec. cbn.
  rewrite Ht. cbn. rewrite bool_decide_false by done.
  rewrite bool_decide_true by set_solver. cbn. rewrite Hr. cbn. rewrite Hu. cbn.
  split; [eauto|]. split; [by rewrite !app_nil_r|].
  destruct (env _ (DailyDeleteRoomByUrl url)) as [e|[]]; cbn.
  - split; [by destruct e|]. split; [apply lookup_delete_eq|].
    by rewrite <- !app_assoc.
  - split; [done|]. split; [apply lookup_delete_eq|]. by rewrite <- !app_assoc.
Qed.

End Shutdown.

Lemma cleanup_signals_and_waits_witness :
  let c0 :=
    Config (InstantVoice.BotManager.cleanup_one 7 (Process 7 (Some 7%Z))) []
      (World env_up one_worker_mem false [] ∅) in
  let signal := EvCall (ProcTerminate 7) in
  let url := room_url room_a in
  (∃ k, main (exec sample_api [Run Main] c0) = WaitFor 7 5 k) ∧
  exec sample_api [Run Main; Timeout Main] c0 =
    Config (Ret tt) [] (World env_up one_worker_mem false ([] ++ [signal]) ∅) ∧
  (let c' := exec sample_api [Run Main; ProcExit 7; Run Main; Run Main;
                              Run Main; Run Main] c0 in
   main c' = Ret tt ∧
   room_mappings (w_mem (cw c')) !! 7%Z = None ∧
   w_log (cw c') =
     [] ++ [signal; EvDestroy url; EvCall (DailyDeleteRoomByUrl url)]).
Proof.
  apply (cleanup_signals_and_waits sample_api env_up one_worker_mem false []
           ∅ [] 7%Z (Process 7 (Some 7%Z)) (room_url room_a));
    try reflexivity.
  apply not_elem_of_empty.
Defined.

(** C10 (the claim fails): the only worker does not exit within the wait.
    [BotManager.cleanup] returns having sent the [terminate] signal and
    nothing else: no kill, and no destroy operation for the worker's room,
    whose mapping is dropped. *)
Lemma cleanup_timeout_neither_kills_nor_releases :
  let c :=
    exec sample_api [Run Main; Run Main; Timeout Main; Run Main]
      (Config InstantVoice.BotManager.cleanup [] (World env_up one_worker_mem false [] ∅)) in
  main c = Ret tt ∧
  w_log (cw c) = [EvCall (ProcTerminate 7)] ∧
  destroys (room_url room_a) (w_log (cw c)) = 0 ∧
  room_mappings (w_mem (cw c)) = ∅ ∧
  bot_procs (w_mem (cw c)) = ∅.
Proof. vm_compute. repeat split. Qed.


(** ** The room name of a URL *)

Lemma append_cons (c : Ascii.ascii) (s t : string) :
  String c s +:+ t = String c (s +:+ t).
Proof. reflexivity. Qed.

Lemma append_empty_r (s : string) : s +:+ EmptyString = s.
Proof.
  induction s as [|c s IH]; [done|]. by rewrite append_cons, IH.
Qed.

Lemma append_assoc_char (s : string) (c : Ascii.ascii) (t : string) :
  (s +:+ String c EmptyString) +:+ t = s +:+ String c t.
Proof.
  induction s as [|d s IH]; [done|]. by rewrite !append_cons, IH.
Qed.

Lemma split_go_no_sep (sep : Ascii.ascii) (cur s : string) :
  sep ∉ String.list_ascii_of_string s →
  Py.split_go sep cur s = [cur +:+ s].
Proof.
  revert cur. induction s as [|c s IH]; intros cur Hs; cbn.
  - by rewrite append_empty_r.
  - cbn in Hs. apply not_elem_of_cons in Hs as [Hc Hs].
    destruct (Ascii.eqb c sep) eqn:Hcs; [apply Ascii.eqb_eq in Hcs; congruence|].
    rewrite (IH _ Hs). by rewrite append_assoc_char.
Qed.

Lemma split_go_not_nil (sep : Ascii.ascii) (cur s : string) :
  Py.split_go sep cur s ≠ [].
Proof.
  revert cur. induction s as [|c s IH]; intros cur; cbn; [done|].
  destruct (Ascii.eqb c sep); [done|apply IH].
Qed.

Lemma last_cons_not_nil (x : string) (l : list string) :
  l ≠ [] → List.last (x :: l) EmptyString = List.last l EmptyString.
Proof. by destruct l. Qed.

Lemma last_split_go (sep : Ascii.ascii) (cur pre name : string) :
  sep ∉ String.list_ascii_of_string name →
  Py.last_item (Py.split_go sep cur (pre +:+ String sep name)) = name.
Proof.
  intros Hn. revert cur. induction pre as [|c pre IH]; intros cur.
  - change (EmptyString +:+ String sep name) with (String sep name). cbn.
    rewrite Ascii.eqb_refl. by rewrite (split_go_no_sep _ _ _ Hn).
  - rewrite append_cons. cbn. destruct (Ascii.eqb c sep).
    + unfold Py.last_item. rewrite last_cons_not_nil by apply split_go_not_nil.
      apply IH.
    + apply IH.
Qed.

(** X1: the room name of [base/name], for a [name] without a slash, is
    [name]: what [_create_token] and [_delete_room] send is the final path
    segment of the room URL. *)
Theorem room_name_of_url (base name : string) :
  no_slash name →
  VoiceAI.RoomPool.room_name_of (base +:+ "/" +:+ name) = name.
Proof.
  intros Hn. unfold VoiceAI.RoomPool.room_name_of.
  destruct (Py.truthy (base +:+ "/" +:+ name)) eqn:Ht.
  - apply last_split_go, Hn.
  - by destruct base.
Qed.

Lemma room_name_of_url_witness :
  VoiceAI.RoomPool.room_name_of ("https://x.daily.co" +:+ "/" +:+ "a") = "a".
Proof.
  apply (room_name_of_url "https://x.daily.co" "a").
  apply (bool_decide_unpack _). reflexivity.
Defined.


(** ** [add_room] of [room_pool.py] *)

Section AddRoom.
Variable api : string.

(** X2: when the created room's URL has no room name (it ends in a
    slash), [add_room] sends nothing after the creation request: no token
    request and no DELETE request, although [_delete_room] is entered. The
    buffer is unchanged and the room stays at the provisioning service. *)
Theorem add_room_url_without_name (w w1 : world) (url : string) :
  eval (VoiceAI.RoomPool._create_room api) w = (Returned (Some url), w1, []) →
  Py.truthy url = true →
  VoiceAI.RoomPool.room_name_of url = EmptyString →
  eval (VoiceAI.RoomPool.add_room api) w =
    (Returned tt, add_log (EvDestroy url) w1, []) ∧
  w_mem (add_log (EvDestroy url) w1) = w_mem w ∧
  w_log (add_log (EvDestroy url) w1) =
    w_log w ++ [EvCall (HttpPost (api +:+ "/rooms") None); EvDestroy url].
Proof.
  intros H1 Hu Hn. unfold VoiceAI.RoomPool.add_room.
  rewrite eval_try_except, eval_mbind, H1. cbn [then_eval Py.truthy_opt].
  rewrite Hu. cbn [negb from_option id].
  unfold VoiceAI.RoomPool._create_token, VoiceAI.RoomPool._delete_room.
  rewrite Hn. cbn.
  rewrite eval_create_room in H1. simplify_eq. cbn.
  split; [done|]. split; [done|]. by rewrite <- app_assoc.
Qed.

(** X3: with the lock free, a created room and two minted tokens,
    [add_room] appends exactly the entry made of the three at the tail of
    the buffer and returns with the lock free; no destroy operation is
    entered. *)
Theorem add_room_appends_entry (w w1 w2 w3 : world) (url ut bt : string) :
  w_locked w = false →
  eval (VoiceAI.RoomPool._create_room api) w = (Returned (Some url), w1, []) →
  Py.truthy url = true →
  eval (VoiceAI.RoomPool._create_token api url) w1 = (Returned (Some ut), w2, []) →
  Py.truthy ut = true →
  eval (VoiceAI.RoomPool._create_token api url) w2 = (Returned (Some bt), w3, []) →
  Py.truthy bt = true →
  eval (VoiceAI.RoomPool.add_room api) w =
    (Returned tt,
     set_mem (set_pool (pool (w_mem w) ++ [Entry url ut bt]) (w_mem w)) w3, []) ∧
  w_locked w3 = false ∧
  destroy_trace (w_log w3) = destroy_trace (w_log w).
Proof.
  intros Hl H1 Hu H2 Hut H3 Hbt. unfold VoiceAI.RoomPool.add_room.
  rewrite eval_try_except, eval_mbind, H1. cbn [then_eval Py.truthy_opt].
  rewrite Hu. cbn [negb from_option id]. rewrite eval_mbind, H2. cbn [then_eval].
  rewrite eval_mbind, H3. cbn [then_eval Py.truthy_opt]. rewrite Hut, Hbt.
  cbn [negb orb].
  rewrite eval_create_room in H1. rewrite !eval_create_token in H2, H3.
  destruct (Py.truthy (VoiceAI.RoomPool.room_name_of url)); cbn in H2, H3;
    simplify_eq.
  destruct w as [env m lk lg ex]. cbn in Hl. subst lk. cbn.
  split; [done|]. split; [done|].
  by rewrite !destroy_trace_app, !app_nil_r.
Qed.

End AddRoom.

Lemma add_room_url_without_name_witness :
  let w := sample_world env_slash [] in
  let url := "https://x.daily.co/" in
  let w1 := add_log (EvCall (HttpPost (sample_api +:+ "/rooms") None)) w in
  eval (VoiceAI.RoomPool.add_room sample_api) w =
    (Returned tt, add_log (EvDestroy url) w1, []) ∧
  w_mem (add_log (EvDestroy url) w1) = w_mem w ∧
  w_log (add_log (EvDestroy url) w1) =
    w_log w ++ [EvCall (HttpPost (sample_api +:+ "/rooms") None); EvDestroy url].
Proof.
  apply (add_room_url_without_name sample_api (sample_world env_slash []));
    reflexivity.
Defined.

Lemma add_room_appends_entry_witness :
  let w := sample_world env_up [room_a] in
  let c1 := HttpPost (sample_api +:+ "/rooms") None in
  let c2 := HttpPost (sample_api +:+ "/meeting-tokens") (Some "new") in
  let w3 := add_log (EvCall c2) (add_log (EvCall c2) (add_log (EvCall c1) w)) in
  eval (VoiceAI.RoomPool.add_room sample_api) w =
    (Returned tt,
     set_mem (set_pool (pool (w_mem w) ++
                [Entry "https://x.daily.co/new" "tok" "tok"]) (w_mem w)) w3, []) ∧
  w_locked w3 = false ∧
  destroy_trace (w_log w3) = destroy_trace (w_log w).
Proof.
  apply (add_room_appends_entry sample_api (sample_world env_up [room_a])
           (add_log (EvCall (HttpPost (sample_api +:+ "/rooms") None))
              (sample_world env_up [room_a]))
           (add_log (EvCall (HttpPost (sample_api +:+ "/meeting-tokens") (Some "new")))
              (add_log (EvCall (HttpPost (sample_api +:+ "/rooms") None))
                 (sample_world env_up [room_a]))));
    reflexivity.
Defined.


(** ** What [add_room] and [fill_pool] of [room_pool.py] keep *)

Section PoolInvariant.
Variable api : string.

Lemma truthy_opt_default (o : option string) :
  Py.truthy_opt o = true → Py.truthy (default EmptyString o) = true.
Proof. by destruct o. Qed.

(** Everything [add_room] can do. *)
Lemma add_room_effect (w : world) :
  ∃ o w',
    eval (VoiceAI.RoomPool.add_room api) w = (o, w', []) ∧
    (∀ e, o ≠ Raised e) ∧
    (w_locked w = false → o = Returned tt) ∧
    w_locked w' = w_locked w ∧
    w_mem w' = set_pool (pool (w_mem w')) (w_mem w) ∧
    creates (w_log w') = creates (w_log w) + 1 ∧
    (pool (w_mem w') = pool (w_mem w) ∨
     ∃ e, pool (w_mem w') = pool (w_mem w) ++ [e] ∧ entry_ok e).
Proof.
  destruct w as [env [pl rps ab bp rm] lk lg ex].
  unfold VoiceAI.RoomPool.add_room.
  rewrite eval_try_except, eval_mbind, eval_create_room. cbn [then_eval].
  destruct (Py.truthy_opt _) eqn:Hu; cbn [negb].
  2:{ cbn. eexists _, _. split; [done|]. repeat split; auto; count_log. }
  apply truthy_opt_default in Hu.
  rewrite eval_mbind, eval_create_token.
  destruct (Py.truthy (VoiceAI.RoomPool.room_name_of _)) eqn:Hn.
  2:{ cbn [then_eval]. rewrite eval_mbind, eval_create_token, Hn. cbn [then_eval].
      cbn [Py.truthy_opt negb orb]. rewrite eval_mbind, eval_delete_room, Hn.
      cbn. eexists _, _. split; [done|]. repeat split; auto; count_log. }
  cbn [then_eval]. rewrite eval_mbind, eval_create_token, Hn. cbn [then_eval].
  destruct (_ || _) eqn:Ht.
  - rewrite eval_mbind, eval_delete_room, Hn.
    cbn. eexists _, _. split; [done|]. repeat split; auto; count_log.
  - apply orb_false_elim in Ht as [Ht1 Ht2].
    apply negb_false_iff, truthy_opt_default in Ht1, Ht2.
    destruct lk; cbn.
    + eexists _, _. split; [done|]. repeat split; eauto; try done; count_log.
    + eexists _, _. split; [done|]. cbn.
      split; [done|]. split; [done|]. split; [done|]. split; [done|].
      split; [count_log|]. right. eexists. split; [done|]. done.
Qed.

(** X4: [add_room] never raises, and the only change it makes to the
    state of the process is to append at most one entry to the buffer; an
    appended entry has a URL with a room name and two tokens, none empty.
    So a buffer of such entries stays one. *)
Theorem add_room_keeps_entries_ok (w : world) :
  Forall entry_ok (pool (w_mem w)) →
  ∃ o w',
    eval (VoiceAI.RoomPool.add_room api) w = (o, w', []) ∧
    (∀ e, o ≠ Raised e) ∧
    w_mem w' = set_pool (pool (w_mem w')) (w_mem w) ∧
    (∃ news, pool (w_mem w') = pool (w_mem w) ++ news ∧ length news ≤ 1) ∧
    Forall entry_ok (pool (w_mem w')).
Proof.
  intros Hok.
  destruct (add_room_effect w) as (o & w' & He & Hr & _ & _ & Hm & _ & Hp).
  exists o, w'. split; [done|]. split; [done|]. split; [done|].
  destruct Hp as [->|(e & -> & He')].
  - split; [|done]. exists []. rewrite app_nil_r. split; [done|cbn; lia].
  - split; [exists [e]; split; [done|cbn; lia]|]. apply Forall_app. split; [done|].
    by constructor.
Qed.

(** X5: with the lock free, [fill_pool count] returns with the lock
    free, having sent exactly [count] room creation requests; the buffer it
    found is a prefix of the buffer it leaves, which has at most [count]
    more entries, all with a URL with a room name and two tokens. *)
Theorem fill_pool_extends_buffer (count : nat) (w : world) :
  w_locked w = false →
  ∃ w' news,
    eval (VoiceAI.RoomPool.fill_pool api count) w = (Returned tt, w', []) ∧
    w_locked w' = false ∧
    pool (w_mem w') = pool (w_mem w) ++ news ∧
    length news ≤ count ∧
    Forall entry_ok news ∧
    creates (w_log w') = creates (w_log w) + count.
Proof.
  unfold VoiceAI.RoomPool.fill_pool.
  revert w. induction count as [|n IH]; intros w Hl.
  - exists w, []. cbn. rewrite app_nil_r. repeat split; auto; lia.
  - cbn [replicate gather]. rewrite eval_bind.
    destruct (add_room_effect w) as (o & w1 & -> & _ & Ho & Hl1 & _ & Hc & Hp).
    rewrite (Ho Hl). cbn [then_eval].
    destruct (IH w1) as (w' & news & -> & Hl' & Hp' & Hlen & Hok & Hc');
      [congruence|].
    destruct Hp as [Hp|(e & Hp & He)].
    + exists w', news. split; [done|]. split; [done|]. rewrite Hp', Hp.
      split; [done|]. split; [lia|]. split; [done|]. lia.
    + exists w', (e :: news). split; [done|]. split; [done|]. rewrite Hp', Hp.
      split; [by rewrite <- app_assoc|]. split; [cbn; lia|].
      split; [by constructor|]. lia.
Qed.

End PoolInvariant.

Lemma add_room_keeps_entries_ok_witness :
  ∃ o w',
    eval (VoiceAI.RoomPool.add_room sample_api) (sample_world env_up [room_a]) =
      (o, w', []) ∧
    (∀ e, o ≠ Raised e) ∧
    w_mem w' = set_pool (pool (w_mem w')) (w_mem (sample_world env_up [room_a])) ∧
    (∃ news, pool (w_mem w') =
               pool (w_mem (sample_world env_up [room_a])) ++ news ∧
             length news ≤ 1) ∧
    Forall entry_ok (pool (w_mem w')).
Proof.
  apply (add_room_keeps_entries_ok sample_api (sample_world env_up [room_a])).
  constructor; [|constructor]. repeat split; reflexivity.
Defined.

Lemma fill_pool_extends_buffer_witness :
  ∃ w' news,
    eval (VoiceAI.RoomPool.fill_pool sample_api 2) (sample_world env_up []) =
      (Returned tt, w', []) ∧
    w_locked w' = false ∧
    pool (w_mem w') = pool (w_mem (sample_world env_up [])) ++ news ∧
    length news ≤ 2 ∧
    Forall entry_ok news ∧
    creates (w_log w') = creates (w_log (sample_world env_up [])) + 2.
Proof.
  apply (fill_pool_extends_buffer sample_api 2 (sample_world env_up [])).
  reflexivity.
Defined.


(** ** [add_room] and [get_room] of [room_pool.py] together *)

Section AddThenGet.
Variable api : string.

Lemma eval_add_room_success (w w1 w2 w3 : world) (url ut bt : string) :
  w_locked w = false →
  eval (VoiceAI.RoomPool._create_room api) w = (Returned (Some url), w1, []) →
  Py.truthy url = true →
  eval (VoiceAI.RoomPool._create_token api url) w1 = (Returned (Some ut), w2, []) →
  Py.truthy ut = true →
  eval (VoiceAI.RoomPool._create_token api url) w2 = (Returned (Some bt), w3, []) →
  Py.truthy bt = true →
  eval (VoiceAI.RoomPool.add_room api) w =
    (Returned tt,
     World (w_env w) (set_pool (pool (w_mem w) ++ [Entry url ut bt]) (w_mem w))
       false (w_log w3) (w_exited w), []).
Proof.
  intros Hl H1 Hu H2 Hut H3 Hbt. unfold VoiceAI.RoomPool.add_room.
  rewrite eval_try_except, eval_mbind, H1. cbn [then_eval Py.truthy_opt].
  rewrite Hu. cbn [negb from_option id]. rewrite eval_mbind, H2. cbn [then_eval].
  rewrite eval_mbind, H3. cbn [then_eval Py.truthy_opt]. rewrite Hut, Hbt.
  cbn [negb orb].
  rewrite eval_create_room in H1. rewrite !eval_create_token in H2, H3.
  destruct (Py.truthy (VoiceAI.RoomPool.room_name_of url)); cbn in H2, H3;
    simplify_eq.
  destruct w as [env m lk lg ex]. cbn in Hl. subst lk. reflexivity.
Qed.

(** X6: on an empty buffer with the lock free, a successful [add_room]
    followed by [get_room] hands out exactly the entry [add_room] built,
    without any further request, and leaves the buffer empty with one
    replenishing task created. *)
Theorem add_room_then_get_room (w w1 w2 w3 : world) (url ut bt : string) :
  w_locked w = false →
  pool (w_mem w) = [] →
  eval (VoiceAI.RoomPool._create_room api) w = (Returned (Some url), w1, []) →
  Py.truthy url = true →
  eval (VoiceAI.RoomPool._create_token api url) w1 = (Returned (Some ut), w2, []) →
  Py.truthy ut = true →
  eval (VoiceAI.RoomPool._create_token api url) w2 = (Returned (Some bt), w3, []) →
  Py.truthy bt = true →
  eval (_ ← VoiceAI.RoomPool.add_room api; VoiceAI.RoomPool.get_room api) w =
    (Returned (Entry url ut bt),
     World (w_env w) (set_pool [] (w_mem w)) false (w_log w3) (w_exited w),
     [TaskAddRoom]).
Proof.
  intros Hl Hp H1 Hu H2 Hut H3 Hbt.
  rewrite eval_mbind,
    (eval_add_room_success w w1 w2 w3 url ut bt Hl H1 Hu H2 Hut H3 Hbt).
  rewrite Hp. reflexivity.
Qed.

(** X7: [get_room] hands out only entries of the buffer: when every
    entry of the buffer has a URL with a room name and two tokens, so has
    the entry returned, and so have the entries left. *)
Theorem get_room_hands_out_ok_entries (w w' : world) (o : outcome entry)
    (ts : list task) :
  Forall entry_ok (pool (w_mem w)) →
  eval (VoiceAI.RoomPool.get_room api) w = (o, w', ts) →
  (∀ room, o = Returned room → entry_ok room) ∧
  Forall entry_ok (pool (w_mem w')).
Proof.
  intros Hok He. destruct w as [env [pl rps ab bp rm] lk lg ex].
  destruct lk; [cbn in He; by simplify_eq|].
  destruct pl as [|room rest].
  - destruct (get_room_empty api env (Mem [] rps ab bp rm) lg ex)
      as (o1 & w1 & He1 & _ & Hp1 & Ho1).
    change (set_pool [] (Mem [] rps ab bp rm)) with (Mem [] rps ab bp rm) in He1.
    rewrite He1 in He. simplify_eq. rewrite Hp1. split; [|done].
    intros room ->. by destruct Ho1 as [[? _]|(? & ? & _)].
  - cbn in He. simplify_eq. cbn in *. apply Forall_cons in Hok as [Hr Hrest].
    split; [|done]. by intros ? [= <-].
Qed.

End AddThenGet.

Lemma add_room_then_get_room_witness :
  let w := sample_world env_up [] in
  let c1 := HttpPost (sample_api +:+ "/rooms") None in
  let c2 := HttpPost (sample_api +:+ "/meeting-tokens") (Some "new") in
  let w1 := add_log (EvCall c1) w in
  let w2 := add_log (EvCall c2) w1 in
  let w3 := add_log (EvCall c2) w2 in
  eval (_ ← VoiceAI.RoomPool.add_room sample_api;
        VoiceAI.RoomPool.get_room sample_api) w =
    (Returned (Entry "https://x.daily.co/new" "tok" "tok"),
     World (w_env w) (set_pool [] (w_mem w)) false (w_log w3) (w_exited w),
     [TaskAddRoom]).
Proof.
  apply (add_room_then_get_room sample_api (sample_world env_up [])
           (add_log (EvCall (HttpPost (sample_api +:+ "/rooms") None))
              (sample_world env_up []))
           (add_log (EvCall (HttpPost (sample_api +:+ "/meeting-tokens") (Some "new")))
              (add_log (EvCall (HttpPost (sample_api +:+ "/rooms") None))
                 (sample_world env_up []))));
    reflexivity.
Defined.

Lemma get_room_hands_out_ok_entries_witness :
  (∀ room, Returned room_a = Returned room → entry_ok room) ∧
  Forall entry_ok (pool (w_mem (sample_world env_up [room_b]))).
Proof.
  apply (get_room_hands_out_ok_entries sample_api
           (sample_world env_up [room_a; room_b])
           (sample_world env_up [room_b]) (Returned room_a) [TaskAddRoom]).
  - repeat constructor.
  - reflexivity.
Defined.

(** The room created by [add_room] is destroyed when a token is not
    minted: a scenario. *)
Lemma add_room_mint_failure_witness :
  let w := sample_world env_no_token [] in
  let c1 := HttpPost (sample_api +:+ "/rooms") None in
  let c2 := HttpPost (sample_api +:+ "/meeting-tokens") (Some "new") in
  let w1 := add_log (EvCall c1) w in
  let w2 := add_log (EvCall c2) w1 in
  let w3 := add_log (EvCall c2) w2 in
  ∃ w' rest,
    eval (VoiceAI.RoomPool.add_room sample_api) w = (Returned tt, w', []) ∧
    w_mem w' = w_mem w ∧ w_locked w' = w_locked w ∧
    w_log w' = w_log w3 ++ EvDestroy "https://x.daily.co/new" :: rest ∧
    destroys "https://x.daily.co/new" (w_log w') =
      destroys "https://x.daily.co/new" (w_log w) + 1.
Proof.
  apply (add_room_mint_failure sample_api (sample_world env_no_token [])
           (add_log (EvCall (HttpPost (sample_api +:+ "/rooms") None))
              (sample_world env_no_token []))
           (add_log (EvCall (HttpPost (sample_api +:+ "/meeting-tokens") (Some "new")))
              (add_log (EvCall (HttpPost (sample_api +:+ "/rooms") None))
                 (sample_world env_no_token [])))
           _ "https://x.daily.co/new" None None);
    reflexivity.
Defined.


(** ** Workers of instant-voice *)

Section Workers.
Variable str : exn → string.

(** [start_bot] sends one request, the start of the worker. When it
    returns, the result is the worker's pid, under which the process and
    the room are registered, and one monitor was started for it. Otherwise
    it raises an [HTTPException] with status 500 whose detail starts with
    "Failed to start subprocess: " (also for a worker without pid), and the
    state is as before. It never waits. *)
Theorem start_bot_outcomes (url token : string) (w : world) :
  let command :=
    "python3 -m " +:+ "single_bot" +:+ " -u " +:+ url +:+ " -t " +:+ token in
  ∃ o w' ts,
    eval (InstantVoice.BotManager.start_bot str url token) w = (o, w', ts) ∧
    w_log w' = w_log w ++ [EvCall (CreateSubprocessShell command)] ∧
    match o with
    | Returned p =>
        ∃ proc,
          w_env w (w_log w) (CreateSubprocessShell command) = inr proc ∧
          pid proc = Some p ∧
          bot_procs (w_mem w') = <[p := proc]> (bot_procs (w_mem w)) ∧
          room_mappings (w_mem w') = <[p := url]> (room_mappings (w_mem w)) ∧
          pool (w_mem w') = pool (w_mem w) ∧
          ts = [TaskMonitor p]
    | Raised e =>
        ∃ detail,
          e = HTTPException 500 ("Failed to start subprocess: " +:+ detail) ∧
          w_mem w' = w_mem w ∧ ts = []
    | Blocked _ => False
    end.
Proof.
  intros command. subst command.
  unfold InstantVoice.BotManager.start_bot. rewrite eval_try_except. cbn.
  destruct (w_env w (w_log w) _) as [e0|[q [p|]]] eqn:Hc; cbn.
  - eexists _, _, _. split; [done|]. split; [done|]. eauto.
  - eexists _, _, _. split; [done|]. split; [done|]. cbn.
    by exists (Process q (Some p)).
  - eexists _, _, _. split; [done|]. split; [done|]. eauto.
Qed.

(** A monitor whose pid is not registered, or whose worker has not exited,
    changes nothing and sends nothing; it does not raise. *)
Theorem monitor_idle_until_exit (p : Z) (w : world) :
  (∀ proc, bot_procs (w_mem w) !! p = Some proc → proc_id proc ∉ w_exited w) →
  ∃ o,
    eval (InstantVoice.BotManager._monitor_process p) w = (o, w, []) ∧
    (bot_procs (w_mem w) !! p = None → o = Returned tt) ∧
    (is_Some (bot_procs (w_mem w) !! p) → ∃ k, o = Blocked k).
Proof.
  intros H. destruct w as [env m lk lg ex]. cbn in *.
  destruct (bot_procs m !! p) as [proc|] eqn:Hb; cbn.
  - rewrite bool_decide_false by eauto. eexists. split; [done|].
    split; [done|]. eauto.
  - eexists. split; [done|]. split; [done|]. by intros [? ?].
Qed.

(** When the destroy request of the monitor raises, the monitor raises the
    same exception: the room has left [room_mappings], and the process
    stays registered in [bot_procs]. *)
Theorem monitor_delete_failure_keeps_process (p : Z) (proc : process)
    (url : string) (e : exn) (w : world) :
  bot_procs (w_mem w) !! p = Some proc →
  room_mappings (w_mem w) !! p = Some url →
  Py.truthy url = true →
  proc_id proc ∈ w_exited w →
  w_env w (w_log w ++ [EvDestroy url]) (DailyDeleteRoomByUrl url) = inl e →
  ∃ w',
    eval (InstantVoice.BotManager._monitor_process p) w = (Raised e, w', []) ∧
    bot_procs (w_mem w') = bot_procs (w_mem w) ∧
    room_mappings (w_mem w') = delete p (room_mappings (w_mem w)) ∧
    w_log w' = w_log w ++ [EvDestroy url; EvCall (DailyDeleteRoomByUrl url)].
Proof.
  intros Hb Hr Hu Hx He. destruct w as [env m lk lg ex]. cbn in *.
  rewrite Hb. cbn. rewrite bool_decide_true by done. cbn.
  rewrite Hr. cbn. rewrite Hu. cbn. rewrite He. cbn.
  eexists. split; [done|]. cbn. by rewrite <- app_assoc.
Qed.

(** A worker started under a pid that was not in use, whose room URL is
    not empty: once it has exited and the destroy request succeeds, its
    monitor returns, the two maps are as they were before [start_bot], and
    the destroy operation was entered once, for the worker's room. *)
Theorem start_bot_then_monitor (url token : string) (p : Z) (w w1 w1' : world)
    (ts : list task) (proc : process) :
  eval (InstantVoice.BotManager.start_bot str url token) w = (Returned p, w1, ts) →
  bot_procs (w_mem w) !! p = None →
  room_mappings (w_mem w) !! p = None →
  Py.truthy url = true →
  bot_procs (w_mem w1) !! p = Some proc →
  w1' = World (w_env w1) (w_mem w1) (w_locked w1) (w_log w1)
              ({[proc_id proc]} ∪ w_exited w1) →
  w_env w1 (w_log w1 ++ [EvDestroy url]) (DailyDeleteRoomByUrl url) = inr tt →
  ts = [TaskMonitor p] ∧
  ∃ w2,
    eval (InstantVoice.BotManager._monitor_process p) w1' = (Returned tt, w2, []) ∧
    bot_procs (w_mem w2) = bot_procs (w_mem w) ∧
    room_mappings (w_mem w2) = room_mappings (w_mem w) ∧
    destroy_trace (w_log w2) = destroy_trace (w_log w) ++ [url].
Proof.
  intros Hs Hb Hr Hu Hp -> Hd. revert Hs.
  unfold InstantVoice.BotManager.start_bot. rewrite eval_try_except. cbn.
  destruct (w_env w (w_log w) _) as [e0|[q [p'|]]]; cbn; intros Hs; simplify_eq.
  split; [done|]. destruct w as [env m lk lg ex]. cbn in *.
  rewrite lookup_insert_eq in Hp. simplify_eq.
  rewrite lookup_insert_eq. cbn.
  rewrite bool_decide_true by set_solver. cbn.
  rewrite lookup_insert_eq. cbn. rewrite Hu. cbn. rewrite Hd. cbn.
  rewrite lookup_insert_eq. cbn.
  eexists. split; [done|]. cbn.
  rewrite !delete_insert_id by done.
  split; [done|]. split; [done|].
  rewrite !destroy_trace_app. cbn. by rewrite !app_nil_r.
Qed.

(** A monitor that was waiting for its worker and is resumed after the two
    maps have lost the pid (as [cleanup] leaves them): it raises [KeyError]
    from the removal of the process, having sent nothing. *)
Theorem monitor_after_cleanup (p : Z) (proc : process) (w0 : world) :
  bot_procs (w_mem w0) !! p = Some proc →
  proc_id proc ∉ w_exited w0 →
  ∃ k,
    eval (InstantVoice.BotManager._monitor_process p) w0 = (Blocked k, w0, []) ∧
    ∀ w1,
      bot_procs (w_mem w1) !! p = None →
      room_mappings (w_mem w1) !! p = None →
      proc_id proc ∈ w_exited w1 →
      ∃ w2,
        eval k w1 = (Raised KeyError, w2, []) ∧
        w_log w2 = w_log w1 ∧
        bot_procs (w_mem w2) = bot_procs (w_mem w1) ∧
        room_mappings (w_mem w2) = room_mappings (w_mem w1).
Proof.
  intros Hb Hx0. destruct w0 as [env m lk lg ex]. cbn in *.
  rewrite Hb. cbn. rewrite bool_decide_false by done.
  eexists. split; [done|]. intros [env1 m1 lk1 lg1 ex1] Hb1 Hr1 Hx. cbn in *.
  rewrite bool_decide_true by done. cbn. rewrite Hr1. cbn. rewrite Hb1. cbn.
  eexists. split; [done|]. cbn. by rewrite !delete_id.
Qed.

End Workers.

Lemma monitor_idle_until_exit_witness :
  ∃ o,
    eval (InstantVoice.BotManager._monitor_process 7)
         (World env_up one_worker_mem false [] ∅) =
      (o, World env_up one_worker_mem false [] ∅, []) ∧
    (bot_procs one_worker_mem !! 7%Z = None → o = Returned tt) ∧
    (is_Some (bot_procs one_worker_mem !! 7%Z) → ∃ k, o = Blocked k).
Proof.
  apply (monitor_idle_until_exit 7 (World env_up one_worker_mem false [] ∅)).
  intros proc _. apply not_elem_of_empty.
Defined.

Lemma monitor_delete_failure_keeps_process_witness :
  ∃ w',
    eval (InstantVoice.BotManager._monitor_process 7)
         (World env_no_delete one_worker_mem false [] {[7%Z]}) =
      (Raised (LibraryError "service unavailable"), w', []) ∧
    bot_procs (w_mem w') = bot_procs one_worker_mem ∧
    room_mappings (w_mem w') = delete 7%Z (room_mappings one_worker_mem) ∧
    w_log w' = [] ++ [EvDestroy (room_url room_a);
                      EvCall (DailyDeleteRoomByUrl (room_url room_a))].
Proof.
  apply (monitor_delete_failure_keeps_process 7 (Process 7 (Some 7%Z))
           (room_url room_a) (LibraryError "service unavailable")
           (World env_no_delete one_worker_mem false [] {[7%Z]}));
    first [reflexivity | by apply elem_of_singleton].
Defined.

Lemma start_bot_then_monitor_witness :
  [TaskMonitor 7] = [TaskMonitor 7] ∧
  ∃ w2,
    eval (InstantVoice.BotManager._monitor_process 7)
         (World env_up one_worker_mem false
            [EvCall (CreateSubprocessShell
               ("python3 -m " +:+ "single_bot" +:+ " -u " +:+ room_url room_a
                  +:+ " -t " +:+ "bot-a"))]
            ({[7%Z]} ∪ ∅)) = (Returned tt, w2, []) ∧
    bot_procs (w_mem w2) = bot_procs (sample_mem []) ∧
    room_mappings (w_mem w2) = room_mappings (sample_mem []) ∧
    destroy_trace (w_log w2) = destroy_trace [] ++ [room_url room_a].
Proof.
  apply (start_bot_then_monitor sample_str (room_url room_a) "bot-a" 7
           (sample_world env_up [])
           (World env_up one_worker_mem false
              [EvCall (CreateSubprocessShell
                 ("python3 -m " +:+ "single_bot" +:+ " -u " +:+ room_url room_a
                    +:+ " -t " +:+ "bot-a"))] ∅)
           _ [TaskMonitor 7] (Process 7 (Some 7%Z)));
    reflexivity.
Defined.

Lemma monitor_after_cleanup_witness :
  ∃ k,
    eval (InstantVoice.BotManager._monitor_process 7)
         (World env_up one_worker_mem false [] ∅) =
      (Blocked k, World env_up one_worker_mem false [] ∅, []) ∧
    ∀ w1,
      bot_procs (w_mem w1) !! 7%Z = None →
      room_mappings (w_mem w1) !! 7%Z = None →
      7%Z ∈ w_exited w1 →
      ∃ w2,
        eval k w1 = (Raised KeyError, w2, []) ∧
        w_log w2 = w_log w1 ∧
        bot_procs (w_mem w2) = bot_procs (w_mem w1) ∧
        room_mappings (w_mem w2) = room_mappings (w_mem w1).
Proof.
  apply (monitor_after_cleanup 7 (Process 7 (Some 7%Z))
           (World env_up one_worker_mem false [] ∅)).
  - reflexivity.
  - apply not_elem_of_empty.
Defined.


(** ** Shutdown of instant-voice *)

Lemma terminations_app (l1 l2 : list event) :
  terminations (l1 ++ l2) = terminations l1 ++ terminations l2.
Proof. apply omap_app. Qed.

Lemma eval_cleanup_one (p : Z) (proc : process) (w : world) :
  ∃ w',
    eval (InstantVoice.BotManager.cleanup_one p proc) w = (Returned tt, w', []) ∧
    cleanup_loop_post [(p, proc)] w w'.
Proof.
  destruct w as [env m lk lg ex].
  unfold InstantVoice.BotManager.cleanup_one, cleanup_loop_post.
  rewrite eval_try_except. cbn.
  assert (∀ u, room_mappings m !! p = Some u → proc_id proc ∈ ex →
            Forall (λ u0, ∃ item : Z * process, item ∈ [(p, proc)] ∧
                      room_mappings m !! item.1 = Some u0 ∧
                      proc_id item.2 ∈ ex) [u]) as Hnew.
  { intros u Hu Hx. apply Forall_singleton. exists (p, proc).
    split; [apply list_elem_of_singleton; done|done]. }
  destruct (env lg (ProcTerminate (proc_id proc))) as [e|[]]; cbn.
  { destruct (is_TimeoutError e); cbn.
    all: eexists; (split; [done|]); cbn; repeat (split; [done|]).
    all: rewrite terminations_app, destroy_trace_app; cbn.
    all: split; [done|]; exists []; by rewrite !app_nil_r. }
  case_bool_decide as Hx; cbn.
  2:{ eexists. split; [done|]. cbn. repeat (split; [done|]).
      rewrite terminations_app, destroy_trace_app; cbn.
      split; [done|]. exists []. by rewrite !app_nil_r. }
  destruct (room_mappings m !! p) as [u|] eqn:Hu; cbn.
  2:{ eexists. split; [done|]. cbn. repeat (split; [done|]).
      split; [apply delete_subseteq|].
      rewrite terminations_app, destroy_trace_app; cbn.
      split; [done|]. exists []. by rewrite !app_nil_r. }
  destruct (Py.truthy u); cbn.
  2:{ eexists. split; [done|]. cbn. repeat (split; [done|]).
      split; [apply delete_subseteq|].
      rewrite terminations_app, destroy_trace_app; cbn.
      split; [done|]. exists []. by rewrite !app_nil_r. }
  destruct (env _ (DailyDeleteRoomByUrl u)) as [e|[]]; cbn.
  1: destruct (is_TimeoutError e); cbn.
  all: eexists; (split; [done|]); cbn; repeat (split; [done|]).
  all: split; [apply delete_subseteq|].
  all: rewrite !terminations_app, !destroy_trace_app; cbn.
  all: rewrite !app_nil_r; split; [done|]; exists [u]; split; [done|].
  all: by apply Hnew.
Qed.

Lemma eval_cleanup_loop (items : list (Z * process)) (w : world) :
  ∃ w',
    eval (for_each items
            (λ item, InstantVoice.BotManager.cleanup_one item.1 item.2)) w =
      (Returned tt, w', []) ∧
    cleanup_loop_post items w w'.
Proof.
  revert w. induction items as [|[p proc] items IH]; intros w; cbn [for_each].
  - exists w. split; [done|]. unfold cleanup_loop_post. repeat (split; [done|]).
    cbn. rewrite app_nil_r. split; [done|]. exists []. by rewrite app_nil_r.
  - rewrite eval_bind. cbn [fst snd].
    destruct (eval_cleanup_one p proc w) as (w1 & -> & H1). cbn [then_eval].
    destruct (IH w1) as (w2 & -> & H2). exists w2. split; [done|].
    destruct H1 as (E1 & L1 & X1 & P1 & A1 & B1 & R1 & T1 & new1 & D1 & F1).
    destruct H2 as (E2 & L2 & X2 & P2 & A2 & B2 & R2 & T2 & new2 & D2 & F2).
    unfold cleanup_loop_post.
    split; [congruence|]. split; [congruence|]. split; [congruence|].
    split; [congruence|]. split; [congruence|]. split; [congruence|].
    split; [by etrans|]. split.
    { rewrite T2, T1. cbn. by rewrite <- app_assoc. }
    exists (new1 ++ new2). split.
    { rewrite D2, D1. by rewrite <- app_assoc. }
    apply Forall_app. split.
    + eapply Forall_impl; [exact F1|]. cbn. intros u (item & Hi & Hr & Hx).
      exists item. split; [|done]. apply list_elem_of_singleton in Hi as ->.
      apply list_elem_of_here.
    + eapply Forall_impl; [exact F2|]. cbn. intros u (item & Hi & Hr & Hx).
      exists item. split; [by apply list_elem_of_further|].
      split; [by eapply lookup_weaken|]. by rewrite <- X1.
Qed.

Lemma eval_bm_cleanup (w : world) :
  ∃ w1,
    cleanup_loop_post (map_to_list (bot_procs (w_mem w))) w w1 ∧
    eval InstantVoice.BotManager.cleanup w =
      (Returned tt,
       set_mem (set_room_mappings ∅ (set_bot_procs ∅ (w_mem w1))) w1, []).
Proof.
  unfold InstantVoice.BotManager.cleanup. rewrite eval_mbind.
  cbn [eval read then_eval id]. rewrite eval_mbind.
  destruct (eval_cleanup_loop (map_to_list (bot_procs (w_mem w)))
              (set_mem (w_mem w) w)) as (w1 & -> & H1).
  exists w1. split; [|done]. by destruct w.
Qed.

Lemma iv_cleanup_never_waits (w : world) :
  ∃ o w',
    eval InstantVoice.RoomPool.cleanup w = (o, w', []) ∧
    w_mem w' = w_mem w ∧ ∀ k, o ≠ Blocked k.
Proof.
  unfold InstantVoice.RoomPool.cleanup. rewrite eval_mbind.
  cbn [eval read then_eval id].
  assert (∀ l w0, ∃ o w',
    eval (for_each l (λ rooms, InstantVoice.RoomPool.delete_room (room_url rooms))) w0 =
      (o, w', []) ∧ w_mem w' = w_mem w0 ∧ ∀ k, o ≠ Blocked k) as H.
  { induction l as [|room l IH]; intros w0; cbn [for_each].
    - by exists (Returned tt), w0.
    - rewrite eval_bind. cbn.
      destruct (w_env w0 _ (DailyDeleteRoomByUrl (room_url room))) as [e|[]]; cbn.
      + by eexists _, _.
      + match goal with |- context [eval (for_each _ _) ?w1] =>
          destruct (IH w1) as (o & w' & -> & Hm & Hk) end.
        by exists o, w'. }
  destruct (H (pool (w_mem w)) (set_mem (w_mem w) w)) as (o & w' & He & Hm & Hk).
  exists o, w'. rewrite He. destruct o; cbn; done.
Qed.

(** [BotManager.cleanup] always returns: no failure of a signal, of a wait
    or of a destroy request stops the loop. Every registered process is
    sent [terminate] exactly once, in the order of [bot_procs.items()]; at
    the end both maps are empty and the buffer is as before. *)
Theorem bm_cleanup_signals_all_and_clears (w : world) :
  ∃ w',
    eval InstantVoice.BotManager.cleanup w = (Returned tt, w', []) ∧
    bot_procs (w_mem w') = ∅ ∧
    room_mappings (w_mem w') = ∅ ∧
    pool (w_mem w') = pool (w_mem w) ∧
    terminations (w_log w') =
      terminations (w_log w) ++
      ((proc_id ∘ snd) <$> map_to_list (bot_procs (w_mem w))).
Proof.
  destruct (eval_bm_cleanup w) as (w1 & H1 & ->).
  destruct H1 as (_ & _ & _ & P1 & _ & _ & _ & T1 & _).
  eexists. split; [done|]. by cbn.
Qed.

(** [BotManager.cleanup] enters the destroy operation only for a room that
    [room_mappings] binds to a registered process that has exited, and at
    most once for each registered process. *)
Theorem bm_cleanup_destroys_exited_workers_rooms (w : world) :
  ∃ w' new,
    eval InstantVoice.BotManager.cleanup w = (Returned tt, w', []) ∧
    destroy_trace (w_log w') = destroy_trace (w_log w) ++ new ∧
    (∀ u, u ∈ new →
       ∃ p proc,
         bot_procs (w_mem w) !! p = Some proc ∧
         room_mappings (w_mem w) !! p = Some u ∧
         proc_id proc ∈ w_exited w).
Proof.
  destruct (eval_bm_cleanup w) as (w1 & H1 & ->).
  destruct H1 as (_ & _ & _ & _ & _ & _ & _ & _ & new & D1 & F1).
  eexists _, new. split; [done|]. cbn. split; [exact D1|].
  intros u Hu. rewrite Forall_forall in F1.
  destruct (F1 u Hu) as ([p proc] & Hi & Hr & Hx).
  exists p, proc. split; [|done]. by apply elem_of_map_to_list in Hi.
Qed.

(** When no registered worker has exited, [BotManager.cleanup] enters no
    destroy operation; the rooms of the workers are forgotten with the
    maps. *)
Theorem bm_cleanup_without_exit_destroys_nothing (w : world) :
  (∀ p proc, bot_procs (w_mem w) !! p = Some proc → proc_id proc ∉ w_exited w) →
  ∃ w',
    eval InstantVoice.BotManager.cleanup w = (Returned tt, w', []) ∧
    destroy_trace (w_log w') = destroy_trace (w_log w) ∧
    room_mappings (w_mem w') = ∅.
Proof.
  intros Hx. destruct (eval_bm_cleanup w) as (w1 & H1 & ->).
  destruct H1 as (_ & _ & _ & _ & _ & _ & _ & _ & new & D1 & F1).
  eexists. split; [done|]. cbn. split; [|done].
  destruct new as [|u new]; [by rewrite app_nil_r in D1|].
  apply Forall_cons in F1 as [([p proc] & Hi & _ & He) _].
  apply elem_of_map_to_list in Hi. cbn in *. by destruct (Hx p proc).
Qed.

(** The shutdown of instant-voice never waits for ever; however it ends,
    both maps of the manager are empty and the buffer still holds the
    entries it held. *)
Theorem lifespan_shutdown_clears_maps_keeps_buffer (w : world) :
  ∃ o w',
    eval InstantVoice.lifespan_shutdown w = (o, w', []) ∧
    (∀ k, o ≠ Blocked k) ∧
    bot_procs (w_mem w') = ∅ ∧
    room_mappings (w_mem w') = ∅ ∧
    pool (w_mem w') = pool (w_mem w).
Proof.
  unfold InstantVoice.lifespan_shutdown. rewrite eval_mbind.
  destruct (eval_bm_cleanup w) as (w1 & H1 & ->).
  destruct H1 as (_ & _ & _ & P1 & _).
  cbn [then_eval].
  match goal with |- context [eval InstantVoice.RoomPool.cleanup ?w0] =>
    destruct (iv_cleanup_never_waits w0) as (o & w2 & -> & Hm & Hk) end.
  exists o, w2. split; [done|]. split; [done|]. rewrite Hm. by cbn.
Qed.

Lemma bm_cleanup_without_exit_destroys_nothing_witness :
  ∃ w',
    eval InstantVoice.BotManager.cleanup (World env_up one_worker_mem false [] ∅) =
      (Returned tt, w', []) ∧
    destroy_trace (w_log w') = destroy_trace [] ∧
    room_mappings (w_mem w') = ∅.
Proof.
  apply (bm_cleanup_without_exit_destroys_nothing
           (World env_up one_worker_mem false [] ∅)).
  intros p proc _. apply not_elem_of_empty.
Defined.


(** ** The pool of instant-voice *)

Lemma eval_iv_add_room (w : world) :
  w_locked w = false →
  ∃ w',
    eval InstantVoice.RoomPool.add_room w = (Returned tt, w', []) ∧
    iv_add_room_post 1 w w'.
Proof.
  intros Hl. destruct w as [env m lk lg ex]. cbn in Hl. subst lk.
  unfold InstantVoice.RoomPool.add_room, iv_add_room_post.
  rewrite eval_try_except. cbn.
  destruct (env lg DailyCreateRoom) as [e|url]; cbn.
  { eexists. split; [done|]. cbn. repeat (split; [done|]).
    split; [count_log|]. rewrite !destroy_trace_app, !app_nil_r.
    split; [done|]. exists []. rewrite app_nil_r. split; [done|]. split; [cbn; lia|done]. }
  destruct (Py.truthy url) eqn:Hu; cbn.
  2:{ eexists. split; [done|]. cbn. repeat (split; [done|]).
      split; [count_log|]. rewrite !destroy_trace_app, !app_nil_r.
      split; [done|]. exists []. rewrite app_nil_r. split; [done|]. split; [cbn; lia|done]. }
  destruct (env _ (DailyGetToken url)) as [e|ut]; cbn.
  { eexists. split; [done|]. cbn. repeat (split; [done|]).
    split; [count_log|]. rewrite !destroy_trace_app, !app_nil_r.
    split; [done|]. exists []. rewrite app_nil_r. split; [done|]. split; [cbn; lia|done]. }
  destruct (Py.truthy ut) eqn:Hut; cbn.
  2:{ eexists. split; [done|]. cbn. repeat (split; [done|]).
      split; [count_log|]. rewrite !destroy_trace_app, !app_nil_r.
      split; [done|]. exists []. rewrite app_nil_r. split; [done|]. split; [cbn; lia|done]. }
  destruct (env _ (DailyGetToken url)) as [e|bt]; cbn.
  { eexists. split; [done|]. cbn. repeat (split; [done|]).
    split; [count_log|]. rewrite !destroy_trace_app, !app_nil_r.
    split; [done|]. exists []. rewrite app_nil_r. split; [done|]. split; [cbn; lia|done]. }
  destruct (Py.truthy bt) eqn:Hbt; cbn.
  2:{ eexists. split; [done|]. cbn. repeat (split; [done|]).
      split; [count_log|]. rewrite !destroy_trace_app, !app_nil_r.
      split; [done|]. exists []. rewrite app_nil_r. split; [done|]. split; [cbn; lia|done]. }
  eexists. split; [done|]. cbn. repeat (split; [done|]).
  split; [count_log|]. rewrite !destroy_trace_app, !app_nil_r.
  split; [done|]. exists [Entry url ut bt]. split; [done|]. split; [cbn; lia|].
  by apply Forall_singleton.
Qed.

Lemma iv_add_room_post_trans (n1 n2 : nat) (w w1 w2 : world) :
  iv_add_room_post n1 w w1 → iv_add_room_post n2 w1 w2 →
  iv_add_room_post (n1 + n2) w w2.
Proof.
  intros (L1 & E1 & X1 & B1 & R1 & C1 & D1 & new1 & P1 & N1 & F1)
         (L2 & E2 & X2 & B2 & R2 & C2 & D2 & new2 & P2 & N2 & F2).
  unfold iv_add_room_post.
  split; [done|]. split; [congruence|]. split; [congruence|].
  split; [congruence|]. split; [congruence|]. split; [lia|].
  split; [congruence|]. exists (new1 ++ new2).
  split; [by rewrite P2, P1, <- app_assoc|].
  split; [rewrite length_app; lia|]. by apply Forall_app.
Qed.

(** With the lock free, [add_room] of instant-voice always returns: it
    requests one room, enters no destroy operation, leaves the lock free,
    and the buffer either as it was or longer by one entry whose URL and
    tokens are not empty. *)
Theorem iv_add_room_adds_at_most_one (w : world) :
  w_locked w = false →
  ∃ w',
    eval InstantVoice.RoomPool.add_room w = (Returned tt, w', []) ∧
    w_locked w' = false ∧
    creates (w_log w') = creates (w_log w) + 1 ∧
    destroy_trace (w_log w') = destroy_trace (w_log w) ∧
    (pool (w_mem w') = pool (w_mem w) ∨
     ∃ e, pool (w_mem w') = pool (w_mem w) ++ [e] ∧ iv_entry_ok e).
Proof.
  intros Hl. destruct (eval_iv_add_room w Hl) as (w' & He & H).
  destruct H as (L1 & _ & _ & _ & _ & C1 & D1 & new & P1 & N1 & F1).
  exists w'. repeat (split; [done|]).
  destruct new as [|e [|e' new]]; cbn in N1; [|  |lia].
  - left. by rewrite P1, app_nil_r.
  - right. exists e. split; [done|]. by inversion F1.
Qed.

(** With the lock free, [fill_pool count] of instant-voice returns after
    [count] room requests; the old entries stay at the front of the
    buffer, followed by at most [count] new ones, all with a URL and
    tokens that are not empty. *)
Theorem iv_fill_pool_requests_count_rooms (count : nat) (w : world) :
  w_locked w = false →
  ∃ w' new,
    eval (InstantVoice.RoomPool.fill_pool count) w = (Returned tt, w', []) ∧
    creates (w_log w') = creates (w_log w) + count ∧
    pool (w_mem w') = pool (w_mem w) ++ new ∧
    length new ≤ count ∧
    Forall iv_entry_ok new.
Proof.
  intros Hl.
  assert (∃ w', eval (InstantVoice.RoomPool.fill_pool count) w = (Returned tt, w', []) ∧
                iv_add_room_post count w w') as (w' & He & H).
  { unfold InstantVoice.RoomPool.fill_pool. revert w Hl.
    induction count as [|n IH]; intros w Hl; cbn [replicate for_each].
    - exists w. split; [done|]. unfold iv_add_room_post.
      repeat (split; [first [done|lia]|]).
      exists []. rewrite app_nil_r. split; [done|]. split; [cbn; lia|done].
    - rewrite eval_bind.
      destruct (eval_iv_add_room w Hl) as (w1 & -> & H1). cbn [then_eval].
      destruct (IH w1) as (w2 & -> & H2); [by destruct H1|].
      exists w2. split; [done|].
      by apply (iv_add_room_post_trans 1 n w w1 w2). }
  destruct H as (_ & _ & _ & _ & _ & C1 & _ & new & P1 & N1 & F1).
  by exists w', new.
Qed.

(** With the lock free, [get_room] of instant-voice sends nothing and
    leaves the lock free. On an empty buffer it raises [HTTPException] 503
    and starts no task; otherwise it returns the first entry, leaves the
    rest in the buffer and starts one replenishing [add_room]. *)
Theorem iv_get_room_outcomes (w : world) :
  w_locked w = false →
  ∃ o w' ts,
    eval InstantVoice.RoomPool.get_room w = (o, w', ts) ∧
    w_locked w' = false ∧
    w_log w' = w_log w ∧
    match pool (w_mem w) with
    | [] =>
        o = Raised (HTTPException 503 "No available rooms") ∧
        pool (w_mem w') = [] ∧ ts = []
    | room :: rest =>
        o = Returned room ∧ pool (w_mem w') = rest ∧ ts = [TaskAddRoomIV]
    end.
Proof.
  intros Hl. destruct w as [env [[|room rest] ps ab bp rm] lk lg ex].
  all: cbn in Hl; subst lk; cbn; by eexists _, _, _.
Qed.

Section BotConnect.
Variable str : exn → string.

(** With the lock free, [bot_connect] never raises and never waits: the
    reply is either the room URL and the user token of the first entry of
    the buffer, with the worker registered for that room and its monitor
    started, or a body with the single key "error". In every case where the
    buffer was not empty its first entry has left it. *)
Theorem bot_connect_outcomes (w : world) :
  w_locked w = false →
  ∃ body w' ts,
    eval (InstantVoice.bot_connect str) w = (Returned body, w', ts) ∧
    match pool (w_mem w) with
    | [] =>
        body = [("error", str (HTTPException 503 "No available rooms"))] ∧
        w_mem w' = w_mem w ∧ w_log w' = w_log w ∧ ts = []
    | room :: rest =>
        pool (w_mem w') = rest ∧
        ((∃ p,
            body = [("room_url", room_url room); ("token", user_token room)] ∧
            room_mappings (w_mem w') !! p = Some (room_url room) ∧
            is_Some (bot_procs (w_mem w') !! p) ∧
            ts = [TaskAddRoomIV; TaskMonitor p]) ∨
         (∃ e,
            body = [("error", str e)] ∧
            room_mappings (w_mem w') = room_mappings (w_mem w) ∧
            bot_procs (w_mem w') = bot_procs (w_mem w) ∧
            ts = [TaskAddRoomIV]))
    end.
Proof.
  intros Hl. destruct w as [env [[|room rest] ps ab bp rm] lk lg ex].
  all: cbn in Hl; subst lk.
  - cbn. by eexists _, _, _.
  - unfold InstantVoice.bot_connect. rewrite eval_try_except, eval_mbind.
    assert (eval InstantVoice.RoomPool.get_room
              (World env (Mem (room :: rest) ps ab bp rm) false lg ex) =
            (Returned room, World env (Mem rest ps ab bp rm) false lg ex,
             [TaskAddRoomIV])) as -> by reflexivity.
    cbn [then_eval]. rewrite eval_mbind.
    unfold InstantVoice.BotManager.start_bot. rewrite eval_try_except. cbn.
    destruct (env lg _) as [e0|[q [p|]]]; cbn.
    + eexists _, _, _. split; [done|]. cbn. split; [done|]. right. eauto.
    + eexists _, _, _. split; [done|]. cbn. split; [done|]. left.
      exists p. rewrite !lookup_insert_eq. eauto.
    + eexists _, _, _. split; [done|]. cbn. split; [done|]. right. eauto.
Qed.

End BotConnect.

Lemma iv_add_room_adds_at_most_one_witness :
  ∃ w',
    eval InstantVoice.RoomPool.add_room (sample_world env_up [room_a]) =
      (Returned tt, w', []) ∧
    w_locked w' = false ∧
    creates (w_log w') = creates [] + 1 ∧
    destroy_trace (w_log w') = destroy_trace [] ∧
    (pool (w_mem w') = [room_a] ∨
     ∃ e, pool (w_mem w') = [room_a] ++ [e] ∧ iv_entry_ok e).
Proof.
  apply (iv_add_room_adds_at_most_one (sample_world env_up [room_a])).
  reflexivity.
Defined.

Lemma iv_fill_pool_requests_count_rooms_witness :
  ∃ w' new,
    eval (InstantVoice.RoomPool.fill_pool 2) (sample_world env_up [room_a]) =
      (Returned tt, w', []) ∧
    creates (w_log w') = creates [] + 2 ∧
    pool (w_mem w') = [room_a] ++ new ∧
    length new ≤ 2 ∧
    Forall iv_entry_ok new.
Proof.
  apply (iv_fill_pool_requests_count_rooms 2 (sample_world env_up [room_a])).
  reflexivity.
Defined.

Lemma iv_get_room_outcomes_witness :
  ∃ o w' ts,
    eval InstantVoice.RoomPool.get_room (sample_world env_up [room_a; room_b]) =
      (o, w', ts) ∧
    w_locked w' = false ∧
    w_log w' = [] ∧
    o = Returned room_a ∧ pool (w_mem w') = [room_b] ∧ ts = [TaskAddRoomIV].
Proof.
  apply (iv_get_room_outcomes (sample_world env_up [room_a; room_b])).
  reflexivity.
Defined.

Lemma bot_connect_outcomes_witness :
  ∃ body w' ts,
    eval (InstantVoice.bot_connect sample_str) (sample_world env_up [room_a]) =
      (Returned body, w', ts) ∧
    pool (w_mem w') = [] ∧
    ((∃ p,
        body = [("room_url", room_url room_a); ("token", user_token room_a)] ∧
        room_mappings (w_mem w') !! p = Some (room_url room_a) ∧
        is_Some (bot_procs (w_mem w') !! p) ∧
        ts = [TaskAddRoomIV; TaskMonitor p]) ∨
     (∃ e,
        body = [("error", sample_str e)] ∧
        room_mappings (w_mem w') = room_mappings (sample_mem [room_a]) ∧
        bot_procs (w_mem w') = bot_procs (sample_mem [room_a]) ∧
        ts = [TaskAddRoomIV])).
Proof.
  apply (bot_connect_outcomes sample_str (sample_world env_up [room_a])).
  reflexivity.
Defined.


(** ** Sessions of voice-ai *)

Lemma cancellations_app (l1 l2 : list event) :
  cancellations (l1 ++ l2) = cancellations l1 ++ cancellations l2.
Proof. apply omap_app. Qed.

(** [run_bot] never raises and never leaves its session registered:
    whatever [initialize] and [run] do, it returns with the session removed
    from [active_bots] and the other sessions, the buffer and the rooms
    untouched. [run] is started only when [initialize] has returned. *)
Theorem run_bot_always_unregisters (session_id : string) (w : world) :
  ∃ w',
    eval (VoiceAI.run_bot session_id) w = (Returned tt, w', []) ∧
    active_bots (w_mem w') !! session_id = None ∧
    (∀ s, s ≠ session_id →
          active_bots (w_mem w') !! s = active_bots (w_mem w) !! s) ∧
    pool (w_mem w') = pool (w_mem w) ∧
    destroy_trace (w_log w') = destroy_trace (w_log w) ∧
    w_log w' =
      w_log w ++
      EvCall (BotInitialize session_id) ::
      match w_env w (w_log w) (BotInitialize session_id) with
      | inl _ => []
      | inr _ => [EvCall (BotRun session_id)]
      end.
Proof.
  destruct w as [env m lk lg ex]. unfold VoiceAI.run_bot. cbn.
  destruct (env lg (BotInitialize session_id)) as [e|[]]; cbn.
  - case_bool_decide as Hs; cbn.
    all: eexists; (split; [done|]); cbn.
    + split; [apply lookup_delete_eq|].
      split; [by intros s Hn; rewrite lookup_delete_ne|].
      split; [done|]. split; [|done]. by rewrite destroy_trace_app, app_nil_r.
    + split; [by apply eq_None_not_Some|]. split; [done|].
      split; [done|]. split; [|done]. by rewrite destroy_trace_app, app_nil_r.
  - destruct (env _ (BotRun session_id)) as [e|[]]; cbn.
    all: case_bool_decide as Hs; cbn.
    all: eexists; (split; [done|]); cbn.
    all: rewrite <- ?app_assoc, !destroy_trace_app, ?app_nil_r; cbn.
    all: rewrite ?app_nil_r.
    1,3: split; [apply lookup_delete_eq|];
         split; [by intros s Hn; rewrite lookup_delete_ne, lookup_alter_ne|done].
    all: split; [by apply eq_None_not_Some|];
         split; [by intros s Hn; rewrite lookup_alter_ne|done].
Qed.

Section Sessions.
Variable api : string.
Variable TEST_ROOM_URL : option string.
Variable str : exn → string.

(** [disconnect] always answers with success and never raises, also when
    cancelling the task fails. The session is removed from [active_bots]
    and no other session is; the task is cancelled once when the session
    is registered with a task, and nothing else is sent. *)
Theorem disconnect_always_succeeds (session_id : string) (w : world) :
  ∃ w',
    eval (VoiceAI.disconnect session_id) w =
      (Returned (VoiceAI.mkDisconnectResponse true), w', []) ∧
    active_bots (w_mem w') = delete session_id (active_bots (w_mem w)) ∧
    pool (w_mem w') = pool (w_mem w) ∧
    w_log w' =
      w_log w ++
      match active_bots (w_mem w) !! session_id with
      | Some b => if b_has_task b then [EvCall (TaskCancel (b_session_id b))] else []
      | None => []
      end.
Proof.
  destruct w as [env m lk lg ex]. cbn.
  destruct (active_bots m !! session_id) as [b|] eqn:Hb; cbn.
  2:{ eexists. split; [done|]. cbn. rewrite app_nil_r.
      by rewrite delete_id. }
  unfold VoiceAI.VoiceBotManager.disconnect. destruct (b_has_task b); cbn.
  - destruct (env lg (TaskCancel (b_session_id b))) as [e|[]]; cbn.
    all: rewrite bool_decide_true by (by rewrite Hb).
    all: by eexists.
  - rewrite bool_decide_true by (by rewrite Hb).
    eexists. split; [done|]. cbn. by rewrite app_nil_r.
Qed.

(** A second [disconnect] of the same session changes nothing and sends
    nothing. *)
Theorem disconnect_twice (session_id : string) (w w1 : world)
    (o : outcome VoiceAI.DisconnectResponse) (ts : list task) :
  eval (VoiceAI.disconnect session_id) w = (o, w1, ts) →
  ∃ w2,
    eval (VoiceAI.disconnect session_id) w1 =
      (Returned (VoiceAI.mkDisconnectResponse true), w2, []) ∧
    w_mem w2 = w_mem w1 ∧ w_log w2 = w_log w1.
Proof.
  intros H.
  assert (active_bots (w_mem w1) !! session_id = None) as Hn.
  { destruct (disconnect_destroys_nothing session_id w) as (w' & ts' & He & Ha & _).
    rewrite H in He. by simplify_eq. }
  destruct w1 as [env m lk lg ex]. cbn in *. rewrite Hn. cbn. by eexists.
Qed.

(** A session ended before its pipeline exists: [connect] with a room in
    the buffer, under a session id not in use, followed by [disconnect] of
    that session. [active_bots] is as before [connect]; no task was
    cancelled; the room of the session is neither back in the buffer nor
    destroyed. *)
Theorem connect_then_disconnect (env : oracle) (room : entry)
    (rest : list entry) (ab : gmap string bot) (bp : gmap Z process)
    (rm : gmap Z string) (lg : list event) (ex : gset Z) :
  let m := Mem (room :: rest) true ab bp rm in
  let session_id := env lg Uuid4 in
  ab !! session_id = None →
  ∃ w1 w2,
    eval (VoiceAI.connect api TEST_ROOM_URL str) (World env m false lg ex) =
      (Returned (VoiceAI.mkConnectResponse session_id (room_url room)
                   (user_token room)),
       w1, [TaskAddRoom; TaskRunBot session_id]) ∧
    eval (VoiceAI.disconnect session_id) w1 =
      (Returned (VoiceAI.mkDisconnectResponse true), w2, []) ∧
    active_bots (w_mem w2) = ab ∧
    pool (w_mem w2) = rest ∧
    cancellations (w_log w2) = cancellations lg ∧
    destroy_trace (w_log w2) = destroy_trace lg.
Proof.
  intros m session_id Hf. subst m.
  eexists _, _. split; [reflexivity|]. cbn.
  rewrite lookup_insert_eq. cbn. rewrite lookup_insert_eq.
  rewrite bool_decide_true by eauto. cbn.
  split; [done|]. cbn. rewrite delete_insert_id by done.
  rewrite cancellations_app, destroy_trace_app. cbn. by rewrite !app_nil_r.
Qed.

Lemma cleanup_sets_buffer_only (w : world) :
  ∃ w',
    eval (VoiceAI.RoomPool.cleanup api) w = (Returned tt, w', []) ∧
    w_mem w' = set_pool [] (w_mem w) ∧
    destroy_trace (w_log w') =
      destroy_trace (w_log w) ++ (room_url <$> pool (w_mem w)).
Proof.
  unfold VoiceAI.RoomPool.cleanup. rewrite eval_mbind. cbn [eval read then_eval id].
  rewrite gather_guard, eval_mbind.
  destruct (eval_gather_delete_rooms api (pool (w_mem w)) (set_mem (w_mem w) w))
    as (w' & -> & Hm & Ht).
  cbn. eexists. split; [done|]. cbn. rewrite Hm. split; [done|]. exact Ht.
Qed.

(** [shutdown_event] never waits for ever, removes no session from
    [active_bots], and does all of the pool's cleanup or none of it: when
    it returns with a pool configured, the destroy operation was entered
    for every entry of the buffer, in order, and the buffer is empty; when
    it raises (a session's [disconnect] did), no destroy operation was
    entered and the buffer is as before. *)
Theorem shutdown_event_all_or_nothing (w : world) :
  ∃ o w',
    eval (VoiceAI.shutdown_event api) w = (o, w', []) ∧
    active_bots (w_mem w') = active_bots (w_mem w) ∧
    match o with
    | Returned _ =>
        if room_pool_set (w_mem w) then
          pool (w_mem w') = [] ∧
          destroy_trace (w_log w') =
            destroy_trace (w_log w) ++ (room_url <$> pool (w_mem w))
        else
          pool (w_mem w') = pool (w_mem w) ∧
          destroy_trace (w_log w') = destroy_trace (w_log w)
    | Raised _ =>
        pool (w_mem w') = pool (w_mem w) ∧
        destroy_trace (w_log w') = destroy_trace (w_log w)
    | Blocked _ => False
    end.
Proof.
  assert (∀ (l : list (string * bot)) w0, ∃ o w',
    eval (gather ((λ sb : string * bot,
                     _ ← VoiceAI.VoiceBotManager.disconnect sb.2; Ret tt) <$> l)) w0 =
      (o, w', []) ∧
    w_mem w' = w_mem w0 ∧
    destroy_trace (w_log w') = destroy_trace (w_log w0) ∧
    ∀ k, o ≠ Blocked k) as Hg.
  { induction l as [|[s b] l IH]; intros w0.
    - by exists (Returned tt), w0.
    - rewrite fmap_cons. cbn [gather]. rewrite eval_bind.
      unfold VoiceAI.VoiceBotManager.disconnect at 1. cbn [snd].
      destruct (b_has_task b); cbn.
      + destruct (w_env w0 (w_log w0) (TaskCancel (b_session_id b))) as [e|[]]; cbn.
        * eexists _, _. split; [done|]. cbn.
          by rewrite destroy_trace_app, app_nil_r.
        * match goal with |- context [eval (gather _) ?w1] =>
            destruct (IH w1) as (o & w' & -> & Hm & Hd & Hk) end.
          exists o, w'. split; [done|]. split; [done|]. split; [|done].
          rewrite Hd. cbn. by rewrite destroy_trace_app, app_nil_r.
      + destruct (IH w0) as (o & w' & -> & Hm & Hd & Hk).
        by exists o, w'. }
  unfold VoiceAI.shutdown_event. rewrite eval_mbind.
  cbn [eval read then_eval id]. rewrite gather_guard, eval_mbind.
  destruct (Hg (map_to_list (active_bots (w_mem w))) (set_mem (w_mem w) w))
    as (o & w1 & -> & Hm & Hd & Hk).
  destruct o as [[]|e|k]; cbn [then_eval]; [| |by destruct (Hk k)].
  2:{ eexists _, _. split; [done|]. rewrite Hm. by destruct w. }
  rewrite eval_mbind. cbn [eval read then_eval id].
  assert (w_mem w1 = w_mem w) as Hm' by (by destruct w).
  assert (destroy_trace (w_log w1) = destroy_trace (w_log w)) as Hd'
    by (by destruct w).
  rewrite Hm'. destruct (room_pool_set (w_mem w)) eqn:Hp.
  - destruct (cleanup_sets_buffer_only (set_mem (w_mem w) w1))
      as (w2 & He & Hm2 & Hd2).
    rewrite He. cbn. eexists _, _. split; [done|]. rewrite Hm2. cbn.
    split; [done|]. split; [done|]. rewrite Hd2. cbn [set_mem w_log w_mem].
    by rewrite Hd'.
  - cbn [eval]. eexists _, _. split; [done|]. cbn [set_mem w_log w_mem].
    split; [by destruct w|]. split; [by destruct w|]. exact Hd'.
Qed.

End Sessions.

Lemma disconnect_twice_witness :
  ∃ w2,
    eval (VoiceAI.disconnect "sid-1")
         (World env_no_cancel
            (set_active_bots (delete "sid-1" (active_bots one_session_mem))
               one_session_mem)
            false [EvCall (TaskCancel "sid-1")] ∅) =
      (Returned (VoiceAI.mkDisconnectResponse true), w2, []) ∧
    w_mem w2 =
      set_active_bots (delete "sid-1" (active_bots one_session_mem))
        one_session_mem ∧
    w_log w2 = [EvCall (TaskCancel "sid-1")].
Proof.
  apply (disconnect_twice "sid-1" (World env_no_cancel one_session_mem false [] ∅)
           (World env_no_cancel
              (set_active_bots (delete "sid-1" (active_bots one_session_mem))
                 one_session_mem)
              false [EvCall (TaskCancel "sid-1")] ∅)
           (Returned (VoiceAI.mkDisconnectResponse true)) []).
  reflexivity.
Defined.

Lemma connect_then_disconnect_witness :
  ∃ w1 w2,
    eval (VoiceAI.connect sample_api None sample_str)
         (World env_up (Mem [room_a; room_b] true ∅ ∅ ∅) false [] ∅) =
      (Returned (VoiceAI.mkConnectResponse "sid-1" (room_url room_a)
                   (user_token room_a)),
       w1, [TaskAddRoom; TaskRunBot "sid-1"]) ∧
    eval (VoiceAI.disconnect "sid-1") w1 =
      (Returned (VoiceAI.mkDisconnectResponse true), w2, []) ∧
    active_bots (w_mem w2) = ∅ ∧
    pool (w_mem w2) = [room_b] ∧
    cancellations (w_log w2) = cancellations [] ∧
    destroy_trace (w_log w2) = destroy_trace [].
Proof.
  apply (connect_then_disconnect sample_api None sample_str env_up room_a
           [room_b] ∅ ∅ ∅ [] ∅).
  reflexivity.
Defined.


(** ** Waking and sleeping *)

(** [wake_bot] and [sleep_bot] change nothing and send nothing. For a
    registered session they answer with success; once the session has ended,
    by [disconnect] or by the end of [run_bot], they raise
    [HTTPException] 404. *)
Theorem wake_and_sleep_need_a_live_session (session_id : string) (w : world) :
  let not_found := HTTPException 404 "Session not found" in
  (is_Some (active_bots (w_mem w) !! session_id) →
   ∃ msg1 msg2,
     eval (VoiceAI.wake_bot session_id) w =
       (Returned (VoiceAI.mkActionResponse true msg1), w, []) ∧
     eval (VoiceAI.sleep_bot session_id) w =
       (Returned (VoiceAI.mkActionResponse true msg2), w, [])) ∧
  (∀ o w1 ts,
     eval (VoiceAI.disconnect session_id) w = (o, w1, ts) →
     eval (VoiceAI.wake_bot session_id) w1 = (Raised not_found, w1, []) ∧
     eval (VoiceAI.sleep_bot session_id) w1 = (Raised not_found, w1, [])) ∧
  (∀ o w1 ts,
     eval (VoiceAI.run_bot session_id) w = (o, w1, ts) →
     eval (VoiceAI.wake_bot session_id) w1 = (Raised not_found, w1, []) ∧
     eval (VoiceAI.sleep_bot session_id) w1 = (Raised not_found, w1, [])).
Proof.
  intros not_found.
  assert (∀ w1, active_bots (w_mem w1) !! session_id = None →
     eval (VoiceAI.wake_bot session_id) w1 = (Raised not_found, w1, []) ∧
     eval (VoiceAI.sleep_bot session_id) w1 = (Raised not_found, w1, [])) as Hend.
  { intros [env m lk lg ex] Hn. cbn in *. rewrite Hn.
    rewrite bool_decide_false by (by intros [? ?]). done. }
  split; [|split].
  - intros Hs. destruct w as [env m lk lg ex]. cbn in *.
    rewrite bool_decide_true by done. cbn. eauto.
  - intros o w1 ts H. apply Hend.
    destruct (disconnect_destroys_nothing session_id w) as (w' & ts' & He & Ha & _).
    rewrite H in He. by simplify_eq.
  - intros o w1 ts H. apply Hend. revert H.
    destruct w as [env m lk lg ex]. unfold VoiceAI.run_bot. cbn.
    destruct (env lg (BotInitialize session_id)) as [e|[]]; cbn.
    2: destruct (env _ (BotRun session_id)) as [e|[]]; cbn.
    all: case_bool_decide as Hs; cbn; intros H; simplify_eq; cbn.
    all: first [apply lookup_delete_eq | by apply eq_None_not_Some].
Qed.

Lemma wake_and_sleep_need_a_live_session_witness :
  let w := World env_up one_session_mem false [] ∅ in
  let w1 :=
    World env_up
      (set_active_bots (delete "sid-1" (active_bots one_session_mem))
         one_session_mem)
      false [EvCall (TaskCancel "sid-1")] ∅ in
  (∃ msg1 msg2,
     eval (VoiceAI.wake_bot "sid-1") w =
       (Returned (VoiceAI.mkActionResponse true msg1), w, []) ∧
     eval (VoiceAI.sleep_bot "sid-1") w =
       (Returned (VoiceAI.mkActionResponse true msg2), w, [])) ∧
  eval (VoiceAI.wake_bot "sid-1") w1 =
    (Raised (HTTPException 404 "Session not found"), w1, []) ∧
  eval (VoiceAI.sleep_bot "sid-1") w1 =
    (Raised (HTTPException 404 "Session not found"), w1, []).
Proof.
  intros w w1.
  destruct (wake_and_sleep_need_a_live_session "sid-1" w) as (H1 & H2 & _).
  split.
  - apply H1. eexists. reflexivity.
  - apply (H2 (Returned (VoiceAI.mkDisconnectResponse true)) w1 []). reflexivity.
Defined.


(** ** Failures of [connect] *)

Section ConnectFailures.
Variable api : string.
Variable TEST_ROOM_URL : option string.
Variable str : exn → string.

(** Whatever [connect] raises is an [HTTPException] with status 500 whose
    detail is the rendering of the exception its [except Exception] clause
    caught. With a pool configured that exception is the 503 that
    [get_room] raised, which does not reach the client as 503; without a
    pool it is the 500 of the missing [TEST_ROOM_URL], or the validation
    error of a response without user token. *)
Theorem connect_raises_only_500 (w w' : world) (e : exn) (ts : list task) :
  eval (VoiceAI.connect api TEST_ROOM_URL str) w = (Raised e, w', ts) →
  ∃ e0,
    e = HTTPException 500 (str e0) ∧
    if room_pool_set (w_mem w) then
      e0 = HTTPException 503 "No available rooms" ∧
      eval (VoiceAI.RoomPool.get_room api) w = (Raised e0, w', ts)
    else if Py.truthy_opt TEST_ROOM_URL then
      e0 = LibraryError "ValidationError"
    else
      e0 = HTTPException 500 "No room pool configured and TEST_ROOM_URL not set".
Proof.
  destruct w as [env [pl ps ab bp rm] lk lg ex].
  unfold VoiceAI.connect. rewrite eval_try_except.
  destruct ps.
  - rewrite eval_mbind. cbn [eval read then_eval id w_mem set_mem room_pool_set].
    unfold set_mem. cbn [w_env w_mem w_locked w_log w_exited].
    rewrite !eval_mbind.
    destruct (eval (VoiceAI.RoomPool.get_room api)
                (World env (Mem pl true ab bp rm) lk lg ex))
      as [[[room|e0|k] w1] ts1] eqn:Hg; cbn.
    + intros H. simplify_eq.
    + intros H. simplify_eq. exists e0. split; [done|].
      rewrite app_nil_r. split; [|done].
      by eapply get_room_raises_503_only.
    + intros H. simplify_eq.
  - cbn. destruct (Py.truthy_opt TEST_ROOM_URL); cbn.
    all: intros H; simplify_eq; by eexists.
Qed.

(** Without a room pool, [connect] never answers with a session: it raises
    status 500 and asks the provisioning service for nothing. When
    [TEST_ROOM_URL] is not set nothing has changed; when it is set, the
    response cannot be built from the missing user token, and the session
    created for the test room stays registered in [active_bots]. *)
Theorem connect_without_pool (w : world) :
  room_pool_set (w_mem w) = false →
  let session_id := w_env w (w_log w) Uuid4 in
  ∃ e w' ts,
    eval (VoiceAI.connect api TEST_ROOM_URL str) w =
      (Raised (HTTPException 500 (str e)), w', ts) ∧
    pool (w_mem w') = pool (w_mem w) ∧
    creates (w_log w') = creates (w_log w) ∧
    if Py.truthy_opt TEST_ROOM_URL then
      e = LibraryError "ValidationError" ∧
      active_bots (w_mem w') =
        <[session_id :=
            VoiceAI.VoiceBotManager.new (default EmptyString TEST_ROOM_URL)
              None session_id]> (active_bots (w_mem w))
    else
      e = HTTPException 500 "No room pool configured and TEST_ROOM_URL not set" ∧
      w_mem w' = w_mem w ∧ w_log w' = w_log w.
Proof.
  intros Hp session_id. subst session_id.
  destruct w as [env [pl ps ab bp rm] lk lg ex]. cbn in Hp. subst ps.
  unfold VoiceAI.connect. rewrite eval_try_except. cbn.
  destruct (Py.truthy_opt TEST_ROOM_URL); cbn.
  - eexists _, _, _. split; [done|]. cbn. split; [done|]. split; [count_log|done].
  - eexists _, _, _. split; [done|]. cbn. done.
Qed.

End ConnectFailures.

Lemma connect_raises_only_500_witness :
  let w' :=
    World env_no_rooms (sample_mem []) false
      [EvCall (HttpPost (sample_api +:+ "/rooms") None)] ∅ in
  ∃ e0,
    HTTPException 500 "503: No available rooms" = HTTPException 500 (sample_str e0) ∧
    e0 = HTTPException 503 "No available rooms" ∧
    eval (VoiceAI.RoomPool.get_room sample_api) (sample_world env_no_rooms []) =
      (Raised e0, w', []).
Proof.
  apply (connect_raises_only_500 sample_api None sample_str
           (sample_world env_no_rooms [])
           (World env_no_rooms (sample_mem []) false
              [EvCall (HttpPost (sample_api +:+ "/rooms") None)] ∅)
           (HTTPException 500 "503: No available rooms") []).
  reflexivity.
Defined.

Lemma connect_without_pool_witness :
  ∃ e w' ts,
    eval (VoiceAI.connect sample_api (Some "https://x.daily.co/test") sample_str)
         (World env_up (Mem [] false ∅ ∅ ∅) false [] ∅) =
      (Raised (HTTPException 500 (sample_str e)), w', ts) ∧
    pool (w_mem w') = [] ∧
    creates (w_log w') = creates [] ∧
    e = LibraryError "ValidationError" ∧
    active_bots (w_mem w') =
      <["sid-1" :=
          VoiceAI.VoiceBotManager.new "https://x.daily.co/test" None "sid-1"]> ∅.
Proof.
  apply (connect_without_pool sample_api (Some "https://x.daily.co/test")
           sample_str (World env_up (Mem [] false ∅ ∅ ∅) false [] ∅)).
  reflexivity.
Defined.
